(** * nad_receiver: the streaming TCP client for the NAD C338

    A shallow embedding of [NADReceiverTCPC338] (src/nad_receiver/__init__.py)
    and of the [C338_CMDS] table (src/nad_receiver/nad_commands.py), with
    the properties of the command validation, the line decoder, the state
    aggregation, the debounced notification and the reconnect loop; and of
    the status decoder and the volume command of [NADReceiverTCP].

    Layout: module [Py] holds the fragment of the Python built-ins the class
    relies on ([str], [int], [float], [str.split], [str.strip], [in],
    list indexing); module [nad_commands] the command table; module
    [C338] the class, one definition per method; module [D7050] the two
    methods of [NADReceiverTCP]; the lemmas follow. *)

From Stdlib Require Import ZArith String Ascii List Bool Lia.
From Stdlib Require Import DecimalString DecimalZ SpecFloat.
From Stdlib Require HexadecimalString HexadecimalN.
From stdpp Require Import base option list gmap strings.

(** ** Python built-ins *)

Module Py.
Local Open Scope Z_scope.

(** The exception classes that occur in the class and in the transport. *)
Inductive exn :=
  | ValueError | KeyError | IndexError | TypeError | OverflowError
  | UnicodeDecodeError | InvalidStateError | CancelledError
  | ConnectionRefusedError | ConnectionResetError | OSError | TimeoutError.

#[global] Instance exn_eq_dec : EqDecision exn.
Proof. solve_decision. Defined.

(** The result of running a piece of code: it returns, or it raises.
    [Unmodelled] marks the one place where the built-ins are not embedded:
    [str] of a float that is not a small integer ([float_repr]). *)
Inductive result (A : Type) : Type :=
  | Ok (a : A)
  | Raise (e : exn)
  | Unmodelled.
Arguments Ok {A} a.
Arguments Raise {A} e.
Arguments Unmodelled {A}.

#[global] Instance result_bind : MBind result := fun A B k x =>
  match x with
  | Ok a => k a
  | Raise e => Raise e
  | Unmodelled => Unmodelled
  end.

(** The Python objects that reach the class: [bool], [int], [float], [str].
    A float is a binary64 number, as the Standard Library's [spec_float]
    (sign, mantissa, exponent). *)
Inductive object :=
  | PBool (b : bool)
  | PInt (z : Z)
  | PFloat (f : spec_float)
  | PStr (s : string).

(** *** Characters and strings

    A [string] is a sequence of code points below 256. *)

Definition code (c : ascii) : Z := Z.of_N (N_of_ascii c).

Definition is_digit (c : ascii) : bool := (48 <=? code c) && (code c <=? 57).

(** [str.isspace] on code points below 256. *)
Definition is_space (c : ascii) : bool :=
  let n := code c in
  ((9 <=? n) && (n <=? 13)) || ((28 <=? n) && (n <=? 32))
  || (n =? 133) || (n =? 160).

(** The characters [int] and [float] skip around a number: tab to
    carriage return, the space, and U+0085 and U+00A0. The separators
    U+001C to U+001F are white space for [str.strip] only. *)
Definition is_number_space (c : ascii) : bool :=
  let n := code c in
  ((9 <=? n) && (n <=? 13)) || (n =? 32) || (n =? 133) || (n =? 160).

Definition lower (c : ascii) : ascii :=
  let n := code c in
  if (65 <=? n) && (n <=? 90) then ascii_of_N (Z.to_N (n + 32)) else c.

Fixpoint lstrip (blank : ascii -> bool) (l : list ascii) : list ascii :=
  match l with
  | c :: l' => if blank c then lstrip blank l' else l
  | [] => []
  end.

Definition strip_chars (blank : ascii -> bool) (l : list ascii) : list ascii :=
  rev (lstrip blank (rev (lstrip blank l))).

(** [s.strip()] *)
Definition strip (s : string) : string :=
  string_of_list_ascii (strip_chars is_space (list_ascii_of_string s)).

(** [s.split(sep)] for a one-character separator. *)
Fixpoint split (sep : ascii) (s : string) : list string :=
  match s with
  | EmptyString => [EmptyString]
  | String c s' =>
      if Ascii.eqb c sep then EmptyString :: split sep s'
      else match split sep s' with
           | w :: ws => String c w :: ws
           | [] => [String c EmptyString]
           end
  end.

(** [l.index(x)] on a list of strings: the first position, or ValueError. *)
Fixpoint index_from (x : string) (l : list string) (i : Z) : result Z :=
  match l with
  | [] => Raise ValueError
  | y :: l' => if String.eqb y x then Ok i else index_from x l' (i + 1)
  end.

Definition index (l : list string) (x : string) : result Z := index_from x l 0.

(** [l[i]]: negative indices count from the end, out of range raises. *)
Definition getitem (l : list string) (i : Z) : result string :=
  let n := Z.of_nat (length l) in
  let j := if i <? 0 then i + n else i in
  if (0 <=? j) && (j <? n)
  then match nth_error l (Z.to_nat j) with
       | Some x => Ok x
       | None => Raise IndexError
       end
  else Raise IndexError.

(** *** Numbers *)

(** [str(z)] for an int. *)
Definition str_int (z : Z) : string := NilZero.string_of_int (Z.to_int z).

Fixpoint digits_value (acc : Z) (l : list ascii) : Z :=
  match l with
  | [] => acc
  | c :: l' => digits_value (10 * acc + (code c - 48)) l'
  end.

(** Underscores in a numeric literal: each one sits between two digits.
    Returns the literal without them. *)
Fixpoint drop_underscores (prev : option ascii) (l : list ascii)
  : option (list ascii) :=
  let after_digit :=
    match prev with Some p => is_digit p | None => false end in
  let after_underscore :=
    match prev with Some p => Ascii.eqb p "_" | None => false end in
  match l with
  | [] => if after_underscore then None else Some []
  | c :: l' =>
      if Ascii.eqb c "_"
      then if after_digit then drop_underscores (Some c) l' else None
      else if after_underscore && negb (is_digit c) then None
      else option_map (cons c) (drop_underscores (Some c) l')
  end.

(** An optional sign; [true] is minus. *)
Definition take_sign (l : list ascii) : bool * list ascii :=
  match l with
  | c :: l' =>
      if Ascii.eqb c "-" then (true, l')
      else if Ascii.eqb c "+" then (false, l')
      else (false, l)
  | [] => (false, l)
  end.

Definition all_digits (l : list ascii) : bool := forallb is_digit l.

(** The most digits [int] reads from a string and [str] writes for an
    int, [sys.int_info.default_max_str_digits]. *)
Definition max_str_digits : nat := 4300.

(** [int(s)] for a string, base 10: ValueError for a text that is no
    literal, and for a literal with more than [max_str_digits] digits. *)
Definition int_of_str (s : string) : result Z :=
  match drop_underscores None
          (strip_chars is_number_space (list_ascii_of_string s)) with
  | None => Raise ValueError
  | Some l =>
      let '(neg, ds) := take_sign l in
      match ds with
      | [] => Raise ValueError
      | _ => if all_digits ds && (length ds <=? max_str_digits)%nat
             then Ok (if neg then - digits_value 0 ds else digits_value 0 ds)
             else Raise ValueError
      end
  end.

(** *** Floats

    Rounding of the rational [n / d] (with [0 <= n], [0 < d]) to the
    nearest binary64 number, ties to even: 53 bits of mantissa, exponents
    from -1074 (subnormals) to 971, infinity above. *)

(** floor (log2 (n / d)) *)
Definition ilog2_ratio (n d : Z) : Z :=
  let l := Z.log2 n - Z.log2 d in
  if (if 0 <=? l then d * 2 ^ l <=? n else d <=? n * 2 ^ (- l))
  then l else l - 1.

Definition round_binary64 (s : bool) (n d : Z) : spec_float :=
  if n <=? 0 then S754_zero s else
  let e := Z.max (ilog2_ratio n d - 52) (-1074) in
  let num := if 0 <=? e then n else n * 2 ^ (- e) in
  let den := if 0 <=? e then d * 2 ^ e else d in
  let q := num / den in
  let r := num mod den in
  let q' := match 2 * r ?= den with
            | Lt => q
            | Gt => q + 1
            | Eq => if Z.even q then q else q + 1
            end in
  let '(m, e') := if q' =? 2 ^ 53 then (2 ^ 52, e + 1) else (q', e) in
  if m =? 0 then S754_zero s
  else if 971 <? e' then S754_infinity s
  else S754_finite s (Z.to_pos m) e'.

(** [float(z)] for an int: the nearest float, OverflowError beyond the
    range. *)
Definition float_of_int (z : Z) : result spec_float :=
  match round_binary64 (z <? 0) (Z.abs z) 1 with
  | S754_infinity _ => Raise OverflowError
  | f => Ok f
  end.

(** The integer a float is equal to, when it is equal to one. *)
Definition float_as_integer (f : spec_float) : option Z :=
  match f with
  | S754_zero _ => Some 0
  | S754_finite s m e =>
      if 0 <=? e
      then Some (if s then - (Zpos m * 2 ^ e) else Zpos m * 2 ^ e)
      else if Zpos m mod 2 ^ (- e) =? 0
           then Some (if s then - (Zpos m / 2 ^ (- e)) else Zpos m / 2 ^ (- e))
           else None
  | _ => None
  end.

(** [int(f)] for a float: truncation towards zero. *)
Definition int_of_float (f : spec_float) : result Z :=
  match f with
  | S754_nan => Raise ValueError
  | S754_infinity _ => Raise OverflowError
  | S754_zero _ => Ok 0
  | S754_finite s m e =>
      let a := if 0 <=? e then Zpos m * 2 ^ e else Zpos m / 2 ^ (- e) in
      Ok (if s then - a else a)
  end.

(** [str(f)] for a float that is nan, an infinity, a zero or an integer
    below 10^16 in magnitude: the digits of the integer and ".0". The
    shortest-digits form of the other floats is not embedded. *)
Definition float_repr (f : spec_float) : option string :=
  match f with
  | S754_nan => Some "nan"%string
  | S754_infinity s => Some (if s then "-inf" else "inf")%string
  | S754_zero s => Some (if s then "-0.0" else "0.0")%string
  | S754_finite _ _ _ =>
      match float_as_integer f with
      | Some z => if Z.abs z <? 10 ^ 16
                  then Some (str_int z +:+ ".0")%string
                  else None
      | None => None
      end
  end.

(** Splits a list at the first character that fails [p]. *)
Fixpoint span (p : ascii -> bool) (l : list ascii) : list ascii * list ascii :=
  match l with
  | c :: l' => if p c then let '(a, b) := span p l' in (c :: a, b) else ([], l)
  | [] => ([], [])
  end.

(** The exponent part of a float literal: nothing, or [e], a sign and
    digits up to the end. *)
Definition parse_exponent (l : list ascii) : option Z :=
  match l with
  | [] => Some 0
  | c :: l' =>
      if Ascii.eqb (lower c) "e"
      then let '(neg, ds) := take_sign l' in
           match ds with
           | [] => None
           | _ => if all_digits ds
                  then Some (if neg then - digits_value 0 ds
                             else digits_value 0 ds)
                  else None
           end
      else None
  end.

(** [float(s)] for a string: spaces stripped, underscores between digits,
    an optional sign, then [inf], [infinity], [nan] in any case, or a
    decimal literal with an optional fraction and exponent. *)
Definition float_of_str (s : string) : result spec_float :=
  match drop_underscores None
          (strip_chars is_number_space (list_ascii_of_string s)) with
  | None => Raise ValueError
  | Some l =>
      let '(neg, body) := take_sign l in
      let word := string_of_list_ascii (map lower body) in
      if String.eqb word "inf" || String.eqb word "infinity"
      then Ok (S754_infinity neg)
      else if String.eqb word "nan" then Ok S754_nan
      else
        let '(ip, rest) := span is_digit body in
        let '(fp, rest') :=
          match rest with
          | c :: r => if Ascii.eqb c "." then span is_digit r else ([], rest)
          | [] => ([], [])
          end in
        match ip ++ fp, parse_exponent rest' with
        | [], _ | _, None => Raise ValueError
        | ds, Some ex =>
            let n := digits_value 0 ds in
            let k := ex - Z.of_nat (length fp) in
            Ok (if 0 <=? k
                then round_binary64 neg (n * 10 ^ k) 1
                else round_binary64 neg n (10 ^ (- k)))
        end
  end.

(** *** Conversions and comparisons on values *)

(** [str(v)]; an int of more than [max_str_digits] digits raises. *)
Definition str (v : object) : result string :=
  match v with
  | PBool b => Ok (if b then "True" else "False")%string
  | PInt z => if (String.length (str_int (Z.abs z)) <=? max_str_digits)%nat
              then Ok (str_int z)
              else Raise ValueError
  | PFloat f => match float_repr f with
                | Some s => Ok s
                | None => Unmodelled
                end
  | PStr s => Ok s
  end.

(** A str as an object. [==] and [in] compare characters, [is] compares
    objects: the literal ['='] is one object wherever it is written, and a
    str that is built while the program runs may have the same characters
    and be another object. [EqLiteral] is the object of the literal ['='],
    [Str s] any other str with the characters [s]. *)
Inductive pystr :=
  | EqLiteral
  | Str (s : string).

Definition chars (o : pystr) : string :=
  match o with EqLiteral => "="%string | Str s => s end.

(** [o is '='] *)
Definition is_eq_literal (o : pystr) : bool :=
  match o with EqLiteral => true | Str _ => false end.

(** [int(v)] *)
Definition int (v : object) : result Z :=
  match v with
  | PBool b => Ok (if b then 1 else 0)
  | PInt z => Ok z
  | PFloat f => int_of_float f
  | PStr s => int_of_str s
  end.

(** [float(v)] *)
Definition float (v : object) : result spec_float :=
  match v with
  | PBool b => float_of_int (if b then 1 else 0)
  | PInt z => float_of_int z
  | PFloat f => Ok f
  | PStr s => float_of_str s
  end.

(** [v in range(lo, hi)]: [v] is equal to one of the integers of the range. *)
Definition in_range (v : object) (lo hi : Z) : bool :=
  match v with
  | PBool b => let z := if b then 1 else 0 in (lo <=? z) && (z <? hi)
  | PInt z => (lo <=? z) && (z <? hi)
  | PFloat f =>
      match float_as_integer f with
      | Some z => (lo <=? z) && (z <? hi)
      | None => false
      end
  | PStr _ => false
  end.

(** [v in l] for a list of strings: only an equal string is a member. *)
Definition in_strings (v : object) (l : list string) : bool :=
  match v with
  | PStr s => existsb (String.eqb s) l
  | _ => false
  end.

(** A finite number as [m * 2^e], exactly. *)
Definition as_dyadic (v : object) : option (Z * Z) :=
  match v with
  | PBool b => Some (if b then 1 else 0, 0)
  | PInt z => Some (z, 0)
  | PFloat (S754_zero _) => Some (0, 0)
  | PFloat (S754_finite s m e) => Some (if s then Zneg m else Zpos m, e)
  | _ => None
  end.

(** [a == b]: numbers compare by their exact value across [bool], [int]
    and [float]; nan is equal to nothing; strings compare with strings. *)
Definition eq (a b : object) : bool :=
  match a, b with
  | PStr s, PStr t => String.eqb s t
  | PFloat (S754_infinity s), PFloat (S754_infinity t) => Bool.eqb s t
  | _, _ =>
      match as_dyadic a, as_dyadic b with
      | Some (m1, e1), Some (m2, e2) =>
          let e := Z.min e1 e2 in
          m1 * 2 ^ (e1 - e) =? m2 * 2 ^ (e2 - e)
      | _, _ => false
      end
  end.

End Py.

(** ** nad_commands.py: the command table of the C338 *)

Module nad_commands.
Import Py.
Local Open Scope string_scope.
Local Open Scope Z_scope.

(** The ['type'] entry of a command: [bool], [int] or [float]. *)
Inductive pytype := Tbool | Tint | Tfloat.

(** The ['values'] entry of a command: a [range] or a list of strings. *)
Inductive domain :=
  | Range (lo hi : Z)
  | Strings (l : list string).

(** One entry of the table; ['values'] and ['type'] may be absent. *)
Record cmd_desc := CmdDesc {
  supported_operators : list string;
  values : option domain;
  type : option pytype
}.

Definition CMD_MAIN := "Main".
Definition CMD_BRIGHTNESS := "Main.Brightness".
Definition CMD_BASS_EQ := "Main.Bass".
Definition CMD_CONTROL_STANDBY := "Main.ControlStandby".
Definition CMD_AUTO_STANDBY := "Main.AutoStandby".
Definition CMD_VERSION := "Main.Version".
Definition CMD_MUTE := "Main.Mute".
Definition CMD_AUTO_SENSE := "Main.AutoSense".
Definition CMD_SOURCE := "Main.Source".
Definition CMD_VOLUME := "Main.Volume".

Definition MSG_ON := "On".
Definition MSG_OFF := "Off".

Definition all_operators : list string := ["+"; "-"; "="; "?"].

Definition on_off : cmd_desc :=
  CmdDesc all_operators (Some (Strings [MSG_OFF; MSG_ON])) (Some Tbool).

Definition C338_CMDS : list (string * cmd_desc) :=
  [ ("Main", CmdDesc ["?"] None None);
    ("Main.AnalogGain", CmdDesc all_operators (Some (Range 0 0)) (Some Tint));
    ("Main.Brightness", CmdDesc all_operators (Some (Range 0 4)) (Some Tint));
    ("Main.Mute", on_off);
    ("Main.Power", on_off);
    ("Main.Volume",
      CmdDesc all_operators (Some (Range (-80) 0)) (Some Tfloat));
    ("Main.Bass", on_off);
    ("Main.ControlStandby", on_off);
    ("Main.AutoStandby", on_off);
    ("Main.AutoSense", on_off);
    ("Main.Source",
      CmdDesc all_operators
        (Some (Strings ["Stream"; "Wireless"; "TV"; "Phono"; "Coax1"; "Coax2";
                        "Opt1"; "Opt2"]))
        None);
    ("Main.Version", CmdDesc ["?"] None (Some Tfloat));
    ("Main.Model", CmdDesc ["?"] (Some (Strings ["NADC338"])) None) ].

(** [d[key]] on a dict with string keys. *)
Fixpoint get {A} (d : list (string * A)) (key : string) : option A :=
  match d with
  | [] => None
  | (k, a) :: d' => if String.eqb k key then Some a else get d' key
  end.

(** [v in dom] *)
Definition contains (dom : domain) (v : object) : bool :=
  match dom with
  | Range lo hi => in_range v lo hi
  | Strings l => in_strings v l
  end.

(** [dom[i]] *)
Definition item (dom : domain) (i : Z) : result object :=
  match dom with
  | Strings l => s ← getitem l i; Ok (PStr s)
  | Range lo hi =>
      let n := Z.max 0 (hi - lo) in
      let j := if i <? 0 then i + n else i in
      if (0 <=? j) && (j <? n) then Ok (PInt (lo + j)) else Raise IndexError
  end.

(** [dom.index(s)] for a string [s]; no integer of a range is equal to a
    string. *)
Definition position (dom : domain) (s : string) : result Z :=
  match dom with
  | Strings l => index l s
  | Range _ _ => Raise ValueError
  end.

End nad_commands.

(** ** class NADReceiverTCPC338 *)

Module C338.
Import Py nad_commands.
Local Open Scope string_scope.

(** An [asyncio.Future]: pending, resolved by [set_result(True)], or
    cancelled. *)
Inductive future := FutPending | FutResult | FutCancelled.

(** An [asyncio.Task]: pending, returned, raised, or cancelled. *)
Inductive task := TaskPending | TaskFinished | TaskFailed (e : exn) | TaskCancelled.

(** The coroutines the class runs as tasks. *)
Inductive coroutine := ConnectionLoop | StateChanged.

#[global] Instance future_eq_dec : EqDecision future.
Proof. solve_decision. Defined.

#[global] Instance task_eq_dec : EqDecision task.
Proof. solve_decision. Defined.

(** The receiver object with the objects it reaches. The attributes keep
    their names. [_reader] and [_writer] are [true] for a stream object and
    [false] for [None]; [_state_changed_cb] is [true] when a callback was
    given. The event loop [_loop] is the objects it has created so far:
    [futures], the tasks running [_state_changed] ([timers]) and the tasks
    running [_connection_loop] ([connections]); an attribute refers to one
    of them by its position. [written] lists the texts passed to
    [_writer.write], [cb_calls] the contents of [_state] at each call of the
    callback, [slept] the delays of [run_loop]'s sleeps, all in order. *)
Record receiver := Receiver {
  _host : string;
  _reconnect_timeout : object;
  _state_changed_timeout : object;
  _state_changed_cb : bool;
  _reader : bool;
  _writer : bool;
  _connection_task : option nat;
  _state_changed_waiter : option nat;
  _state_changed_task : option nat;
  _state : gmap string object;
  futures : list future;
  timers : list task;
  connections : list task;
  written : list string;
  cb_calls : list (gmap string object);
  slept : list object
}.

(** [__init__] *)
Definition init (host : string) (reconnect_timeout state_changed_timeout : object)
    (state_changed_cb : bool) : receiver :=
  {| _host := host;
     _reconnect_timeout := reconnect_timeout;
     _state_changed_timeout := state_changed_timeout;
     _state_changed_cb := state_changed_cb;
     _reader := false;
     _writer := false;
     _connection_task := None;
     _state_changed_waiter := None;
     _state_changed_task := None;
     _state := ∅;
     futures := [];
     timers := [];
     connections := [];
     written := [];
     cb_calls := [];
     slept := [] |}.

(** Assignments to one attribute. *)
Definition set_streams (b : bool) (r : receiver) : receiver :=
  {| _host := _host r; _reconnect_timeout := _reconnect_timeout r;
     _state_changed_timeout := _state_changed_timeout r;
     _state_changed_cb := _state_changed_cb r; _reader := b; _writer := b;
     _connection_task := _connection_task r;
     _state_changed_waiter := _state_changed_waiter r;
     _state_changed_task := _state_changed_task r; _state := _state r;
     futures := futures r; timers := timers r; connections := connections r;
     written := written r; cb_calls := cb_calls r; slept := slept r |}.

Definition set_connection_task (t : option nat) (r : receiver) : receiver :=
  {| _host := _host r; _reconnect_timeout := _reconnect_timeout r;
     _state_changed_timeout := _state_changed_timeout r;
     _state_changed_cb := _state_changed_cb r; _reader := _reader r;
     _writer := _writer r; _connection_task := t;
     _state_changed_waiter := _state_changed_waiter r;
     _state_changed_task := _state_changed_task r; _state := _state r;
     futures := futures r; timers := timers r; connections := connections r;
     written := written r; cb_calls := cb_calls r; slept := slept r |}.

Definition set_state_changed_waiter (w : option nat) (r : receiver) : receiver :=
  {| _host := _host r; _reconnect_timeout := _reconnect_timeout r;
     _state_changed_timeout := _state_changed_timeout r;
     _state_changed_cb := _state_changed_cb r; _reader := _reader r;
     _writer := _writer r; _connection_task := _connection_task r;
     _state_changed_waiter := w;
     _state_changed_task := _state_changed_task r; _state := _state r;
     futures := futures r; timers := timers r; connections := connections r;
     written := written r; cb_calls := cb_calls r; slept := slept r |}.

Definition set_state_changed_task (t : option nat) (r : receiver) : receiver :=
  {| _host := _host r; _reconnect_timeout := _reconnect_timeout r;
     _state_changed_timeout := _state_changed_timeout r;
     _state_changed_cb := _state_changed_cb r; _reader := _reader r;
     _writer := _writer r; _connection_task := _connection_task r;
     _state_changed_waiter := _state_changed_waiter r;
     _state_changed_task := t; _state := _state r; futures := futures r;
     timers := timers r; connections := connections r; written := written r;
     cb_calls := cb_calls r; slept := slept r |}.

Definition set_state (st : gmap string object) (r : receiver) : receiver :=
  {| _host := _host r; _reconnect_timeout := _reconnect_timeout r;
     _state_changed_timeout := _state_changed_timeout r;
     _state_changed_cb := _state_changed_cb r; _reader := _reader r;
     _writer := _writer r; _connection_task := _connection_task r;
     _state_changed_waiter := _state_changed_waiter r;
     _state_changed_task := _state_changed_task r; _state := st;
     futures := futures r; timers := timers r; connections := connections r;
     written := written r; cb_calls := cb_calls r; slept := slept r |}.

Definition set_futures (fs : list future) (r : receiver) : receiver :=
  {| _host := _host r; _reconnect_timeout := _reconnect_timeout r;
     _state_changed_timeout := _state_changed_timeout r;
     _state_changed_cb := _state_changed_cb r; _reader := _reader r;
     _writer := _writer r; _connection_task := _connection_task r;
     _state_changed_waiter := _state_changed_waiter r;
     _state_changed_task := _state_changed_task r; _state := _state r;
     futures := fs; timers := timers r; connections := connections r;
     written := written r; cb_calls := cb_calls r; slept := slept r |}.

Definition set_timers (ts : list task) (r : receiver) : receiver :=
  {| _host := _host r; _reconnect_timeout := _reconnect_timeout r;
     _state_changed_timeout := _state_changed_timeout r;
     _state_changed_cb := _state_changed_cb r; _reader := _reader r;
     _writer := _writer r; _connection_task := _connection_task r;
     _state_changed_waiter := _state_changed_waiter r;
     _state_changed_task := _state_changed_task r; _state := _state r;
     futures := futures r; timers := ts; connections := connections r;
     written := written r; cb_calls := cb_calls r; slept := slept r |}.

Definition set_connections (ts : list task) (r : receiver) : receiver :=
  {| _host := _host r; _reconnect_timeout := _reconnect_timeout r;
     _state_changed_timeout := _state_changed_timeout r;
     _state_changed_cb := _state_changed_cb r; _reader := _reader r;
     _writer := _writer r; _connection_task := _connection_task r;
     _state_changed_waiter := _state_changed_waiter r;
     _state_changed_task := _state_changed_task r; _state := _state r;
     futures := futures r; timers := timers r; connections := ts;
     written := written r; cb_calls := cb_calls r; slept := slept r |}.

Definition set_written (ws : list string) (r : receiver) : receiver :=
  {| _host := _host r; _reconnect_timeout := _reconnect_timeout r;
     _state_changed_timeout := _state_changed_timeout r;
     _state_changed_cb := _state_changed_cb r; _reader := _reader r;
     _writer := _writer r; _connection_task := _connection_task r;
     _state_changed_waiter := _state_changed_waiter r;
     _state_changed_task := _state_changed_task r; _state := _state r;
     futures := futures r; timers := timers r; connections := connections r;
     written := ws; cb_calls := cb_calls r; slept := slept r |}.

Definition set_cb_calls (cs : list (gmap string object)) (r : receiver) : receiver :=
  {| _host := _host r; _reconnect_timeout := _reconnect_timeout r;
     _state_changed_timeout := _state_changed_timeout r;
     _state_changed_cb := _state_changed_cb r; _reader := _reader r;
     _writer := _writer r; _connection_task := _connection_task r;
     _state_changed_waiter := _state_changed_waiter r;
     _state_changed_task := _state_changed_task r; _state := _state r;
     futures := futures r; timers := timers r; connections := connections r;
     written := written r; cb_calls := cs; slept := slept r |}.

Definition set_slept (sl : list object) (r : receiver) : receiver :=
  {| _host := _host r; _reconnect_timeout := _reconnect_timeout r;
     _state_changed_timeout := _state_changed_timeout r;
     _state_changed_cb := _state_changed_cb r; _reader := _reader r;
     _writer := _writer r; _connection_task := _connection_task r;
     _state_changed_waiter := _state_changed_waiter r;
     _state_changed_task := _state_changed_task r; _state := _state r;
     futures := futures r; timers := timers r; connections := connections r;
     written := written r; cb_calls := cb_calls r; slept := sl |}.

(** *** The event loop's objects *)

(** [fut.done()] and [task.done()] *)
Definition future_done (f : future) : bool :=
  match f with FutPending => false | _ => true end.

Definition task_done (t : task) : bool :=
  match t with TaskPending => false | _ => true end.

(** [self._state_changed_waiter is None or self._state_changed_waiter.done()] *)
Definition waiter_free (r : receiver) : bool :=
  match _state_changed_waiter r with
  | None => true
  | Some w => match futures r !! w with
              | Some f => future_done f
              | None => true
              end
  end.

(** [self._state_changed_task is None or self._state_changed_task.done()] *)
Definition timer_free (r : receiver) : bool :=
  match _state_changed_task r with
  | None => true
  | Some t => match timers r !! t with
              | Some st => task_done st
              | None => true
              end
  end.

(** [self._loop.create_future()] *)
Definition create_future (r : receiver) : receiver * nat :=
  (set_futures (futures r ++ [FutPending]) r, length (futures r)).

(** [self._loop.create_task(coro)] *)
Definition create_task (c : coroutine) (r : receiver) : receiver * nat :=
  match c with
  | StateChanged => (set_timers (timers r ++ [TaskPending]) r, length (timers r))
  | ConnectionLoop =>
      (set_connections (connections r ++ [TaskPending]) r,
       length (connections r))
  end.

(** [fut.cancel()]: a pending future becomes cancelled, a done one stays. *)
Definition cancel_future (w : nat) (r : receiver) : receiver :=
  set_futures
    (alter (fun f => match f with FutPending => FutCancelled | _ => f end)
       w (futures r)) r.

(** [task.cancel()] on a [_state_changed] task: a pending task gets
    CancelledError at its await and ends cancelled without running
    further, a done one stays. *)
Definition cancel_task (t : nat) (r : receiver) : receiver :=
  set_timers
    (alter (fun st => match st with TaskPending => TaskCancelled | _ => st end)
       t (timers r)) r.

(** *** The methods *)

(** [_state_changed], from the end of its sleep on: the callback sees
    [_state]; the waiter is resolved, and [set_result] on a waiter that is
    already done raises InvalidStateError. Returns how the task ends. *)
Definition _state_changed (r : receiver) : receiver * task :=
  let r1 := if _state_changed_cb r
            then set_cb_calls (cb_calls r ++ [_state r]) r
            else r in
  match _state_changed_waiter r1 with
  | Some w =>
      match futures r1 !! w with
      | Some FutPending =>
          (set_futures (<[w := FutResult]> (futures r1)) r1, TaskFinished)
      | _ => (r1, TaskFailed InvalidStateError)
      end
  | None => (r1, TaskFinished)
  end.

(** The sleep of the pending [_state_changed] task elapses (an event of
    the loop, for a [_state_changed_timeout] that can be slept). With no
    such task pending nothing happens. *)
Definition timer_fires (r : receiver) : receiver :=
  match _state_changed_task r with
  | Some t =>
      match timers r !! t with
      | Some TaskPending =>
          let '(r1, st) := _state_changed r in
          set_timers (<[t := st]> (timers r1)) r1
      | _ => r
      end
  | None => r
  end.

(** The conversion of a received text to the command's type. *)
Definition convert (cmd_desc : cmd_desc) (value : string) : result object :=
  match type cmd_desc with
  | Some Tbool =>
      match values cmd_desc with
      | Some dom => i ← position dom value; Ok (PBool (negb (i =? 0)%Z))
      | None => Raise KeyError
      end
  | Some Tint => z ← int_of_str value; Ok (PInt z)
  | Some Tfloat => f ← float_of_str value; Ok (PFloat f)
  | None => Ok (PStr value)
  end.

(** [_parse_data(data)] *)
Definition _parse_data (r : receiver) (data : string) : result receiver :=
  match split "=" data with
  | [key; value] =>
      match get C338_CMDS key with
      | None => Raise KeyError
      | Some cmd_desc =>
          value ← convert cmd_desc value;
          let st := <[key := value]> (_state r) in
          let st := if String.eqb key "Main.Volume"
                    then <["Main.Mute" := PBool false]> st
                    else st in
          let r := set_state st r in
          if timer_free r
          then let '(r, t) := create_task StateChanged r in
               Ok (set_state_changed_task (Some t) r)
          else Ok r
      end
  | _ => Raise ValueError
  end.

Definition is_some {A} (o : option A) : bool :=
  match o with Some _ => true | None => false end.

(** The validation of [exec_command] and the text it builds. The operator
    is looked up by its characters ([in]); the test for a missing value is
    [operator is '='], on the object. *)
Definition command_text (command : string) (operator : pystr)
    (value : option object) : result string :=
  match get C338_CMDS command with
  | None => Raise KeyError
  | Some cmd_desc =>
      if existsb (String.eqb (chars operator)) (supported_operators cmd_desc)
      then
        if is_eq_literal operator && negb (is_some value)
        then Raise ValueError
        else if existsb (String.eqb (chars operator)) ["?"; "-"; "+"]
                && is_some value
        then Raise ValueError
        else
          match value with
          | None => Ok (command +:+ chars operator)
          | Some v =>
              v ← match values cmd_desc with
                  | Some dom =>
                      match type cmd_desc with
                      | Some Tbool => i ← int v; item dom i
                      | _ => if negb (contains dom v)
                             then Raise ValueError else Ok v
                      end
                  | None => Ok v
                  end;
              sv ← str v;
              Ok (command +:+ chars operator +:+ sv)
          end
      else Raise ValueError
  end.

(** [exec_command(command, operator, value=None)] *)
Definition exec_command (r : receiver) (command : string) (operator : pystr)
    (value : option object) : result receiver :=
  if _writer r
  then cmd ← command_text command operator value;
       Ok (set_written (written r ++ [cmd]) r)
  else Ok r.

(** [status()] up to its last await: returns the future the caller is
    suspended on. *)
Definition status (r : receiver) : result (receiver * nat) :=
  let fresh := let '(r, w) := create_future r in
               (set_state_changed_waiter (Some w) r, w) in
  let '(r, w) :=
    match _state_changed_waiter r with
    | Some w => if waiter_free r then fresh else (r, w)
    | None => fresh
    end in
  r ← exec_command r "Main" (Str "?") None;
  Ok (r, w).

(** [status()] from its last await on, for a caller suspended on [w]:
    [None] while the future is pending, then [_state] or CancelledError. *)
Definition status_resumes (r : receiver) (w : nat)
  : option (result (gmap string object)) :=
  match futures r !! w with
  | Some FutResult => Some (Ok (_state r))
  | Some FutCancelled => Some (Raise CancelledError)
  | _ => None
  end.



Definition set_volume (r : receiver) (volume : object) : result receiver :=
  f ← float volume; exec_command r CMD_VOLUME EqLiteral (Some (PFloat f)).



Definition mute (r : receiver) : result receiver :=
  exec_command r CMD_MUTE EqLiteral (Some (PBool true)).



(** [list(range(lo, hi))] *)
Definition range_list (lo hi : Z) : list Z :=
  map (fun i => (lo + Z.of_nat i)%Z) (seq 0 (Z.to_nat (hi - lo))).

(** [available_sources()] *)
Definition available_sources : result (list object) :=
  match get C338_CMDS CMD_SOURCE with
  | None => Raise KeyError
  | Some cmd_desc =>
      match values cmd_desc with
      | None => Raise KeyError
      | Some (Strings l) => Ok (map PStr l)
      | Some (Range lo hi) => Ok (map PInt (range_list lo hi))
      end
  end.

(** *** The connection and the reconnect loop *)

(** What the transport and the event loop do while [_connection_loop] is
    suspended in [readline]: a line arrives (its text after
    [decode('utf-8')]), bytes arrive that are not UTF-8, the stream ends,
    the await raises (a transport error, or CancelledError when the task
    is cancelled), or the debounce sleep elapses. *)
Inductive event :=
  | Line (data : string)
  | Undecodable
  | Eof
  | Fail (e : exn)
  | Timer.

(** One connection attempt: how [open_connection] ends ([None]: it
    connects) and what follows. *)
Record attempt := Attempt {
  connect : option exn;
  events : list event
}.

(** How far a coroutine got: it returned, it raised, or it is suspended at
    an await because the script has no further event. *)
Inductive outcome :=
  | Returned
  | Raised (e : exn)
  | Awaiting
  | OutOfModel.

(** [if self._state:] *)
Definition state_nonempty (r : receiver) : bool :=
  negb (Nat.eqb (size (_state r)) 0).

(** The [finally] block of [_connection_loop]. *)
Definition clean_up (r : receiver) : receiver :=
  let r := match _state_changed_waiter r with
           | Some w => cancel_future w r
           | None => r
           end in
  let r := match _state_changed_task r with
           | Some t => cancel_task t r
           | None => r
           end in
  let r := set_streams false r in
  if state_nonempty r
  then let r := set_state ∅ r in
       if _state_changed_cb r
       then set_cb_calls (cb_calls r ++ [_state r]) r
       else r
  else r.

(** The [while] loop of [_connection_loop], without the [finally]. *)
Fixpoint read_loop (r : receiver) (evs : list event) : outcome * receiver :=
  match evs with
  | [] => (Awaiting, r)
  | Line data :: evs =>
      if String.eqb data ""
      then read_loop r evs
      else match _parse_data r (strip data) with
           | Ok r' => read_loop r' evs
           | Raise e => (Raised e, r)
           | Unmodelled => (OutOfModel, r)
           end
  | Undecodable :: _ => (Raised UnicodeDecodeError, r)
  | Eof :: _ => (Returned, r)
  | Fail e :: _ => (Raised e, r)
  | Timer :: evs => read_loop (timer_fires r) evs
  end.

(** The [try] block of [_connection_loop]. *)
Definition connection_body (r : receiver) (a : attempt) : outcome * receiver :=
  match connect a with
  | Some e => (Raised e, r)
  | None =>
      let r := set_streams true r in
      match exec_command r "Main" (Str "?") None with
      | Ok r => read_loop r (events a)
      | Raise e => (Raised e, r)
      | Unmodelled => (OutOfModel, r)
      end
  end.

(** [_connection_loop()]: the [finally] block runs when the [try] block
    is left. *)
Definition _connection_loop (r : receiver) (a : attempt) : outcome * receiver :=
  match connection_body r a with
  | (Returned, r) => (Returned, clean_up r)
  | (Raised e, r) => (Raised e, clean_up r)
  | other => other
  end.

(** [except (ConnectionRefusedError, OSError, asyncio.TimeoutError)];
    the connection errors are subclasses of OSError. *)
Definition reconnects_on (e : exn) : bool :=
  match e with
  | ConnectionRefusedError | ConnectionResetError | OSError | TimeoutError => true
  | _ => false
  end.

(** [await asyncio.sleep(delay)], as far as the delay decides it. The test
    [delay <= 0] raises TypeError for a str; a delay that is not positive
    yields to the loop once and returns; for a positive int beyond the
    floats [loop.time() + delay] raises OverflowError; a finite positive
    delay elapses, an infinite one never does. What a nan does depends on
    the version of asyncio. *)
Inductive slumber :=
  | Elapses
  | NeverElapses
  | SleepRaises (e : exn)
  | SleepUnmodelled.

Definition sleep (delay : object) : slumber :=
  match delay with
  | PStr _ => SleepRaises TypeError
  | PBool _ => Elapses
  | PInt z =>
      if (z <=? 0)%Z then Elapses
      else match float_of_int z with
           | Raise e => SleepRaises e
           | _ => Elapses
           end
  | PFloat S754_nan => SleepUnmodelled
  | PFloat (S754_infinity false) => NeverElapses
  | PFloat _ => Elapses
  end.

(** What one turn of [run_loop]'s [while True] does once the awaited
    connection task is over. *)
Inductive verdict :=
  | Break
  | SleepAndRetry (delay : object)
  | Propagate (e : exn).

Definition after_attempt (r : receiver) (o : outcome) : option verdict :=
  match o with
  | Returned => Some Break
  | Raised CancelledError => Some Break
  | Raised e => Some (if reconnects_on e
                      then SleepAndRetry (_reconnect_timeout r)
                      else Propagate e)
  | _ => None
  end.

(** How a task ends when its coroutine raises [e]. *)
Definition raised_task (e : exn) : task :=
  match e with CancelledError => TaskCancelled | _ => TaskFailed e end.

(** The connection task at [t] is over. *)
Definition end_connection (t : nat) (o : outcome) (r : receiver) : receiver :=
  match o with
  | Returned => set_connections (<[t := TaskFinished]> (connections r)) r
  | Raised e => set_connections (<[t := raised_task e]> (connections r)) r
  | _ => r
  end.

(** [self._connection_task = self._loop.create_task(self._connection_loop())] *)
Definition start_attempt (r : receiver) : receiver * nat :=
  let '(r, t) := create_task ConnectionLoop r in
  (set_connection_task (Some t) r, t).

(** [run_loop()], driven by one script for each connection attempt. With
    no script left the loop has not advanced further. The sleep of the
    [except] clause is awaited inside the handler: what it raises leaves
    [run_loop]. *)
Fixpoint run_loop (r : receiver) (attempts : list attempt) : outcome * receiver :=
  match attempts with
  | [] => (Awaiting, r)
  | a :: rest =>
      let '(r, t) := start_attempt r in
      let '(o, r) := _connection_loop r a in
      let r := end_connection t o r in
      match after_attempt r o with
      | Some Break => (Returned, r)
      | Some (SleepAndRetry delay) =>
          match sleep delay with
          | Elapses => run_loop (set_slept (slept r ++ [delay]) r) rest
          | NeverElapses => (Awaiting, r)
          | SleepRaises e => (Raised e, r)
          | SleepUnmodelled => (OutOfModel, r)
          end
      | Some (Propagate e) => (Raised e, r)
      | None => (o, r)
      end
  end.

(** The tasks running [_connection_loop] that are not done. *)
Definition live_connections (r : receiver) : nat :=
  length (filter (fun t => t = TaskPending) (connections r)).

(** The futures that are not done. *)
Definition live_waiters (r : receiver) : nat :=
  length (filter (fun f => f = FutPending) (futures r)).

(** *** The receiver in use

    One step of a receiver in use: a line is parsed, the debounce sleep
    elapses, a caller runs [status] or [exec_command], a connection opens,
    a connection drops, a caller suspended in [status] is cancelled (which
    cancels the future it awaits), [run_loop] starts a connection task, the
    task is over, the reconnect sleep elapses. *)
Inductive step : receiver -> receiver -> Prop :=
  | step_line r data r' :
      _parse_data r data = Ok r' -> step r r'
  | step_timer r :
      step r (timer_fires r)
  | step_status r r' w :
      status r = Ok (r', w) -> step r r'
  | step_command r command operator value r' :
      exec_command r command operator value = Ok r' -> step r r'
  | step_open r :
      step r (set_streams true r)
  | step_drop r :
      step r (clean_up r)
  | step_caller_cancelled r w :
      step r (cancel_future w r)
  | step_attempt r :
      step r (fst (start_attempt r))
  | step_attempt_over r t o :
      step r (end_connection t o r)
  | step_slept r delay :
      step r (set_slept (slept r ++ [delay]) r).

(** The receivers a fresh one can become. *)
Inductive reachable : receiver -> Prop :=
  | reachable_init host t1 t2 cb :
      reachable (init host t1 t2 cb)
  | reachable_step r r' :
      reachable r -> step r r' -> reachable r'.

End C338.

(** ** class NADReceiverTCP *)

Module D7050.
Import Py nad_commands.
Local Open Scope string_scope.
Local Open Scope Z_scope.

Definition POLL_VOLUME := "0001020204".
Definition POLL_POWER := "0001020209".
Definition POLL_MUTED := "000102020a".
Definition POLL_SOURCE := "0001020203".

Definition CMD_POWERSAVE := "00010207000001020207".
Definition CMD_VOLUME := "00010204".
Definition CMD_MUTE := "0001020a01".
Definition CMD_SOURCE := "00010203".

Definition SOURCES : list (string * string) :=
  [ ("Coaxial 1", "00"); ("Coaxial 2", "01"); ("Optical 1", "02");
    ("Optical 2", "03"); ("Computer", "04"); ("Airplay", "05");
    ("Dock", "06"); ("Bluetooth", "07") ].

(** [{value: key for key, value in SOURCES.items()}]: a later item
    replaces an earlier one with the same value. *)
Definition SOURCES_REVERSED : list (string * string) :=
  rev (map (fun kv => (snd kv, fst kv)) SOURCES).

(** The value of a hexadecimal digit. *)
Definition hex_value (c : ascii) : option Z :=
  let n := code c in
  if (48 <=? n) && (n <=? 57) then Some (n - 48)
  else if (97 <=? n) && (n <=? 102) then Some (n - 87)
  else if (65 <=? n) && (n <=? 70) then Some (n - 55)
  else None.

Definition is_hex (c : ascii) : bool :=
  match hex_value c with Some _ => true | None => false end.

Fixpoint hex_digits_value (acc : Z) (l : list ascii) : Z :=
  match l with
  | [] => acc
  | c :: l' => hex_digits_value (16 * acc + default 0 (hex_value c)) l'
  end.

(** Underscores between hexadecimal digits, as [drop_underscores] for
    the decimal ones. *)
Fixpoint drop_hex_underscores (prev : option ascii) (l : list ascii)
  : option (list ascii) :=
  let after_digit :=
    match prev with Some p => is_hex p | None => false end in
  let after_underscore :=
    match prev with Some p => Ascii.eqb p "_" | None => false end in
  match l with
  | [] => if after_underscore then None else Some []
  | c :: l' =>
      if Ascii.eqb c "_"
      then if after_digit then drop_hex_underscores (Some c) l' else None
      else if after_underscore && negb (is_hex c) then None
      else option_map (cons c) (drop_hex_underscores (Some c) l')
  end.

(** [int(s, 16)]: spaces around, a sign, an optional prefix [0x] that one
    underscore may follow, then hexadecimal digits. *)
Definition int_of_str_16 (s : string) : result Z :=
  let '(neg, body) :=
    take_sign (strip_chars is_number_space (list_ascii_of_string s)) in
  let body :=
    match body with
    | zero :: x :: rest =>
        if Ascii.eqb zero "0" && (Ascii.eqb x "x" || Ascii.eqb x "X")
        then match rest with
             | u :: rest' => if Ascii.eqb u "_" then rest' else rest
             | [] => rest
             end
        else body
    | _ => body
    end in
  match drop_hex_underscores None body with
  | Some (d :: ds) =>
      if forallb is_hex (d :: ds)
      then let n := hex_digits_value 0 (d :: ds) in Ok (if neg then - n else n)
      else Raise ValueError
  | _ => Raise ValueError
  end.

(** [format(v, "02x")] for an int: the sign, the digits in lower case, and
    a zero in front of a single digit. *)
Definition format_02x (v : Z) : string :=
  let digits :=
    HexadecimalString.NilZero.string_of_uint (N.to_hex_uint (Z.to_N (Z.abs v))) in
  if v <? 0 then "-" +:+ digits
  else if (String.length digits <? 2)%nat then "0" +:+ digits
  else digits.

(** [s[-2:]] *)
Definition last2 (s : string) : string :=
  let l := list_ascii_of_string s in
  string_of_list_ascii (skipn (length l - 2) l).

(** [[s[i:i + 10] for i in range(0, len(s), 10)]] *)
Fixpoint chunks_from (fuel : nat) (l : list ascii) : list string :=
  match fuel, l with
  | S fuel, _ :: _ =>
      string_of_list_ascii (firstn 10 l) :: chunks_from fuel (skipn 10 l)
  | _, _ => []
  end.

Definition chunks (s : string) : list string :=
  let l := list_ascii_of_string s in chunks_from (length l) l.

(** [status()], from the reply on. *)
Definition status (nad_reply : string) : result (gmap string object) :=
  let nad_status := chunks nad_reply in
  c ← getitem nad_status 0;
  volume ← int_of_str_16 (last2 c);
  c ← getitem nad_status 1;
  let power := String.eqb (last2 c) "01" in
  c ← getitem nad_status 2;
  let mute := String.eqb (last2 c) "01" in
  c ← getitem nad_status 3;
  match get SOURCES_REVERSED (last2 c) with
  | None => Raise KeyError
  | Some source =>
      Ok (<["Main.Source" := PStr source]>
            (<["Main.Mute" := PBool mute]>
               (<["Main.Power" := PBool power]>
                  {["Main.Volume" := PInt volume]})))
  end.

(** How a number compares with the int [k]; a nan compares with nothing,
    a str raises. *)
Definition compare_int (v : object) (k : Z) : result (option comparison) :=
  match v with
  | PBool b => Ok (Some ((if b then 1 else 0) ?= k))
  | PInt z => Ok (Some (z ?= k))
  | PFloat S754_nan => Ok None
  | PFloat (S754_infinity s) => Ok (Some (if s then Lt else Gt))
  | PFloat (S754_zero _) => Ok (Some (0 ?= k))
  | PFloat (S754_finite s m e) =>
      let z := if s then Zneg m else Zpos m in
      Ok (Some (if 0 <=? e then z * 2 ^ e ?= k else z ?= k * 2 ^ (- e)))
  | PStr _ => Raise TypeError
  end.

(** [0 <= volume <= 200] *)
Definition in_0_200 (volume : object) : result bool :=
  c ← compare_int volume 0;
  match c with
  | Some Gt | Some Eq =>
      c ← compare_int volume 200;
      Ok (match c with Some Lt | Some Eq => true | _ => false end)
  | _ => Ok false
  end.

(** [codecs.decode(message, 'hex_codec')]: the bytes, two digits each. *)
Fixpoint unhex (l : list ascii) : result (list Z) :=
  match l with
  | [] => Ok []
  | _ :: [] => Raise ValueError
  | a :: b :: l' =>
      match hex_value a, hex_value b with
      | Some x, Some y => bs ← unhex l'; Ok (16 * x + y :: bs)
      | _, _ => Raise ValueError
      end
  end.

(** [set_volume(volume)]: the bytes [_send] writes, if any. *)
Definition set_volume (volume : object) : result (option (list Z)) :=
  ok ← in_0_200 volume;
  if ok : bool
  then text ← match volume with
              | PInt z => Ok (format_02x z)
              | PBool b => Ok (format_02x (if b then 1 else 0))
              | _ => Raise ValueError
              end;
       bs ← unhex (list_ascii_of_string (CMD_VOLUME +:+ text));
       Ok (Some bs)
  else Ok None.

(** [available_sources()] *)
Definition available_sources : list string := map fst SOURCES.

End D7050.

(** ** Properties *)

Import Py nad_commands C338.
Local Open Scope string_scope.
Local Open Scope list_scope.

#[local] Arguments String.eqb : simpl never.

(** A receiver that was just created, with a callback, and the same one
    with a connection open. *)
Definition fresh : receiver := init "nad.local" (PInt 10) (PInt 1) true.
Definition online : receiver := set_streams true fresh.

(** *** Commands while disconnected *)

(** C8. With no writer, [exec_command] returns normally for every command,
    operator and value, and returns the receiver as it was: nothing is
    written and no attribute changes. *)
Theorem exec_command_disconnected r command operator value :
  _writer r = false ->
  exec_command r command operator value = Ok r.
Proof.
  intros Hw. unfold exec_command. by rewrite Hw.
Qed.

Lemma exec_command_disconnected_witness :
  exec_command fresh "Main.Volume" (Str "-") (Some (PInt 5)) = Ok fresh.
Proof.
  apply exec_command_disconnected. reflexivity.
Defined.

(** *** Validation *)

Lemma exec_command_connected r command operator value :
  _writer r = true ->
  exec_command r command operator value =
    cmd ← command_text command operator value;
    Ok (set_written (written r ++ [cmd]) r).
Proof.
  intros Hw. unfold exec_command. by rewrite Hw.
Qed.

(** The error of a rejected command: KeyError for a command that is not in
    the table, ValueError otherwise. *)
Definition rejection (command : string) : exn :=
  if is_some (get C338_CMDS command) then ValueError else KeyError.

(** C7, as the spec states it: the four rejections for every receiver.
    On a receiver without a connection all four calls return normally. *)
Lemma validation_skipped_when_disconnected :
  exec_command fresh "Main.Volume" (Str "-") (Some (PInt 5)) = Ok fresh /\
  exec_command fresh "Main.Volume" EqLiteral None = Ok fresh /\
  exec_command fresh "Main.Version" EqLiteral (Some (PInt 1)) = Ok fresh /\
  exec_command fresh "Main.Source" EqLiteral (Some (PStr "Tape")) = Ok fresh.
Proof.
  repeat split; reflexivity.
Qed.

(** C7, amended: with a connection open, [exec_command] raises when the
    operator reads "-", "?" or "+" and a value is given, when the operator
    is the object of the literal "=" (the test is [operator is '=']) and no
    value is given, when the operator is not among the command's supported
    operators, and when the command has a value domain, is not boolean, and
    the value is outside the domain. *)
Theorem exec_command_rejects r command operator value :
  _writer r = true ->
  (In (chars operator) ["-"; "?"; "+"] /\ value <> None) \/
  (operator = EqLiteral /\ value = None) \/
  (exists d, get C338_CMDS command = Some d /\
             ~ In (chars operator) (supported_operators d)) \/
  (exists d dom v, get C338_CMDS command = Some d /\
                   values d = Some dom /\ type d <> Some Tbool /\
                   value = Some v /\ contains dom v = false) ->
  exec_command r command operator value = Raise (rejection command).
Proof.
  intros Hw H. rewrite exec_command_connected by done.
  unfold command_text, rejection.
  destruct (get C338_CMDS command) as [d|] eqn:Hd; [simpl | done].
  destruct H as [[Hin Hv] | [[-> ->] | [(d' & Hd' & Hn) | H]]].
  - destruct value as [v|]; [| done].
    destruct (existsb _ (supported_operators _)); [| done].
    simpl in Hin. destruct Hin as [<- | [<- | [<- | []]]];
      by destruct operator.
  - destruct (existsb _ (supported_operators _)); done.
  - destruct (existsb _ (supported_operators _)) eqn:Hop; [| done].
    exfalso. apply Hn. simplify_eq.
    apply existsb_exists in Hop as (x & Hx & Heq).
    apply String.eqb_eq in Heq. by subst.
  - destruct H as (d' & dom & v & Hd' & Hdom & Hty & -> & Hc). simplify_eq.
    destruct (existsb _ (supported_operators _)); [| done].
    destruct (is_eq_literal operator && _); [done |].
    destruct (_ && is_some (Some v)); [done |].
    rewrite Hdom. destruct (type _) as [[]|]; try done; by rewrite Hc.
Qed.

Lemma exec_command_rejects_witness :
  exec_command online "Main.Volume" (Str "-") (Some (PInt 5)) = Raise ValueError.
Proof.
  apply (exec_command_rejects online "Main.Volume" (Str "-") (Some (PInt 5)));
    [reflexivity |].
  left. split; [simpl; tauto | discriminate].
Defined.

(** *** Applying a line *)

(** The state after [key] is set to [v]. *)
Definition store (key : string) (v : object) (st : gmap string object)
  : gmap string object :=
  if String.eqb key "Main.Volume"
  then <["Main.Mute" := PBool false]> (<[key := v]> st)
  else <[key := v]> st.

(** The receiver after the last two lines of [_parse_data]. *)
Definition arm (r : receiver) : receiver :=
  if timer_free r
  then set_state_changed_task (Some (length (timers r)))
         (set_timers (timers r ++ [TaskPending]) r)
  else r.

Lemma timer_free_set_state st r : timer_free (set_state st r) = timer_free r.
Proof. reflexivity. Qed.

Lemma parse_data_ok r data r' :
  _parse_data r data = Ok r' <->
  exists key value d v,
    split "=" data = [key; value] /\ get C338_CMDS key = Some d /\
    convert d value = Ok v /\ r' = arm (set_state (store key v (_state r)) r).
Proof.
  unfold _parse_data, arm. fold (store).
  split.
  - destruct (split "=" data) as [|key [|value [|]]]; try done.
    destruct (get C338_CMDS key) as [d|] eqn:Hd; [| done].
    destruct (convert d value) as [v| |] eqn:Hv; try done.
    unfold mbind, result_bind. fold (store key v (_state r)).
    intros H. exists key, value, d, v. split_and!; try done.
    destruct (timer_free _); cbn in H; injection H as <-; reflexivity.
  - intros (key & value & d & v & -> & -> & Hv & ->). rewrite Hv.
    unfold mbind, result_bind. fold (store key v (_state r)).
    by destruct (timer_free _).
Qed.

Lemma parse_data_state r data r' key value :
  split "=" data = [key; value] -> _parse_data r data = Ok r' ->
  exists d v, get C338_CMDS key = Some d /\ convert d value = Ok v /\
              _state r' = store key v (_state r).
Proof.
  intros Hs (k & x & d & v & Hs' & Hd & Hv & ->)%parse_data_ok.
  rewrite Hs in Hs'. simplify_eq. exists d, v. repeat split; try done.
  unfold arm. by destruct (timer_free _).
Qed.

(** A receiver that shows the device unmuted. *)
Definition unmuted : receiver :=
  set_state {["Main.Mute" := PBool false]} online.

(** C5, as the spec states it: an update with a key other than
    "Main.Volume" leaves "Main.Mute" as it was. The line "Main.Mute=On" has
    another key and changes it from false to true. *)
Lemma mute_line_changes_mute :
  split "=" "Main.Mute=On" = ["Main.Mute"; "On"] /\
  "Main.Mute" <> "Main.Volume" /\
  _state unmuted !! "Main.Mute" = Some (PBool false) /\
  exists r', _parse_data unmuted "Main.Mute=On" = Ok r' /\
             _state r' !! "Main.Mute" = Some (PBool true).
Proof.
  split; [reflexivity |]. split; [discriminate |]. split; [reflexivity |].
  eexists. split; reflexivity.
Qed.

(** C5, amended: whatever the state was, a line with the key "Main.Volume"
    leaves "Main.Mute" at false; a line with the key "Main.Mute" leaves it
    at the converted value; a line with any other key leaves it as it
    was. *)
Theorem volume_unmutes r data r' key value :
  split "=" data = [key; value] ->
  _parse_data r data = Ok r' ->
  (key = "Main.Volume" -> _state r' !! "Main.Mute" = Some (PBool false)) /\
  (key = "Main.Mute" ->
     exists v, convert on_off value = Ok v /\
               _state r' !! "Main.Mute" = Some v) /\
  (key <> "Main.Volume" -> key <> "Main.Mute" ->
     _state r' !! "Main.Mute" = _state r !! "Main.Mute").
Proof.
  intros Hs Hp.
  destruct (parse_data_state _ _ _ _ _ Hs Hp) as (d & v & Hd & Hv & ->).
  unfold store. repeat split.
  - intros ->. simpl. apply lookup_insert_eq.
  - intros ->. simpl in *. simplify_eq. exists v. split; [done |].
    apply lookup_insert_eq.
  - intros Hk1 Hk2. apply String.eqb_neq in Hk1. rewrite Hk1.
    by apply lookup_insert_ne.
Qed.

(** A receiver that shows the device muted. *)
Definition muted : receiver :=
  set_state {["Main.Mute" := PBool true]} online.

Lemma volume_unmutes_witness :
  _state muted !! "Main.Mute" = Some (PBool true) /\
  exists r', _parse_data muted "Main.Volume=-12" = Ok r' /\
             _state r' !! "Main.Mute" = Some (PBool false).
Proof.
  split; [reflexivity |].
  eexists. split; [reflexivity |].
  eapply (volume_unmutes muted "Main.Volume=-12" _ "Main.Volume" "-12");
    reflexivity.
Defined.

(** *** The end of a connection *)

(** The [finally] block, attribute by attribute. *)
Definition cancel_waiter (r : receiver) : list future :=
  match _state_changed_waiter r with
  | Some w => alter (fun f => match f with FutPending => FutCancelled | _ => f end)
                w (futures r)
  | None => futures r
  end.

Definition cancel_timer (r : receiver) : list task :=
  match _state_changed_task r with
  | Some t => alter (fun st => match st with TaskPending => TaskCancelled | _ => st end)
                t (timers r)
  | None => timers r
  end.

Ltac setters :=
  unfold set_cb_calls, set_state, set_streams, cancel_task, cancel_future,
    set_timers, set_futures; cbn;
  repeat match goal with H : _ = _ |- _ => rewrite H end;
  rewrite ?app_nil_r.

Lemma clean_up_eq r :
  clean_up r =
  {| _host := _host r; _reconnect_timeout := _reconnect_timeout r;
     _state_changed_timeout := _state_changed_timeout r;
     _state_changed_cb := _state_changed_cb r;
     _reader := false; _writer := false;
     _connection_task := _connection_task r;
     _state_changed_waiter := _state_changed_waiter r;
     _state_changed_task := _state_changed_task r;
     _state := if state_nonempty r then ∅ else _state r;
     futures := cancel_waiter r; timers := cancel_timer r;
     connections := connections r; written := written r;
     cb_calls := cb_calls r ++
                 (if _state_changed_cb r && state_nonempty r then [∅] else []);
     slept := slept r |}.
Proof.
  unfold clean_up, cancel_waiter, cancel_timer.
  destruct (_state_changed_waiter r) as [w|] eqn:Hw.
  - change (_state_changed_task (cancel_future w r))
      with (_state_changed_task r).
    destruct (_state_changed_task r) as [t|] eqn:Ht.
    + change (state_nonempty (set_streams false (cancel_task t (cancel_future w r))))
        with (state_nonempty r).
      destruct (state_nonempty r).
      * change (_state_changed_cb (set_state ∅ (set_streams false
                  (cancel_task t (cancel_future w r)))))
          with (_state_changed_cb r).
        destruct (_state_changed_cb r) eqn:Hcb; by setters.
      * rewrite andb_false_r. by setters.
    + change (state_nonempty (set_streams false (cancel_future w r)))
        with (state_nonempty r).
      destruct (state_nonempty r).
      * change (_state_changed_cb (set_state ∅ (set_streams false
                  (cancel_future w r))))
          with (_state_changed_cb r).
        destruct (_state_changed_cb r) eqn:Hcb; by setters.
      * rewrite andb_false_r. by setters.
  - destruct (_state_changed_task r) as [t|] eqn:Ht.
    + change (state_nonempty (set_streams false (cancel_task t r)))
        with (state_nonempty r).
      destruct (state_nonempty r).
      * change (_state_changed_cb (set_state ∅ (set_streams false
                  (cancel_task t r))))
          with (_state_changed_cb r).
        destruct (_state_changed_cb r) eqn:Hcb; by setters.
      * rewrite andb_false_r. by setters.
    + change (state_nonempty (set_streams false r)) with (state_nonempty r).
      destruct (state_nonempty r).
      * change (_state_changed_cb (set_state ∅ (set_streams false r)))
          with (_state_changed_cb r).
        destruct (_state_changed_cb r) eqn:Hcb; by setters.
      * rewrite andb_false_r. by setters.
Qed.

Lemma clean_up_state r : _state (clean_up r) = ∅.
Proof.
  rewrite clean_up_eq. cbn. unfold state_nonempty.
  destruct (Nat.eqb (size (_state r)) 0) eqn:Hs; [| done].
  by apply map_size_empty_inv, Nat.eqb_eq.
Qed.

Lemma clean_up_streams r : _writer (clean_up r) = false /\ _reader (clean_up r) = false.
Proof. by rewrite clean_up_eq. Qed.

Lemma clean_up_cb_calls r :
  cb_calls (clean_up r) =
  (cb_calls r ++ if _state_changed_cb r && state_nonempty r then [∅] else [])%list.
Proof. by rewrite clean_up_eq. Qed.

Lemma clean_up_futures r : futures (clean_up r) = cancel_waiter r.
Proof. by rewrite clean_up_eq. Qed.

Lemma clean_up_timers r : timers (clean_up r) = cancel_timer r.
Proof. by rewrite clean_up_eq. Qed.

Lemma clean_up_attributes r :
  _state_changed_task (clean_up r) = _state_changed_task r /\
  _state_changed_waiter (clean_up r) = _state_changed_waiter r /\
  _state_changed_cb (clean_up r) = _state_changed_cb r /\
  written (clean_up r) = written r /\
  connections (clean_up r) = connections r /\
  _connection_task (clean_up r) = _connection_task r /\
  slept (clean_up r) = slept r /\
  _reconnect_timeout (clean_up r) = _reconnect_timeout r.
Proof. by rewrite clean_up_eq. Qed.

(** After the clean-up no sleep is pending: a late [Timer] does nothing. *)
Lemma clean_up_no_timer r : timer_fires (clean_up r) = clean_up r.
Proof.
  unfold timer_fires.
  destruct (clean_up_attributes r) as (-> & _). rewrite clean_up_timers.
  unfold cancel_timer.
  destruct (_state_changed_task r) as [t|]; [| done].
  rewrite list_lookup_alter. destruct (decide (t = t)); [| done].
  by destruct (timers r !! t) as [[]|].
Qed.

Lemma connection_loop_drop r a o rd :
  connection_body r a = (o, rd) ->
  o = Returned \/ (exists e, o = Raised e) ->
  _connection_loop r a = (o, clean_up rd).
Proof.
  intros Hb Ho. unfold _connection_loop. rewrite Hb.
  by destruct Ho as [-> | [e ->]].
Qed.

(** C3, as the spec states it: the callback is called once at every
    drop. A refused connection on a fresh receiver with a callback leaves
    the callback uncalled: the state is empty when the attempt ends. *)
Lemma drop_with_empty_state_is_silent :
  _state_changed_cb fresh = true /\
  exists r', _connection_loop fresh (Attempt (Some ConnectionRefusedError) [])
             = (Raised ConnectionRefusedError, r') /\
             cb_calls r' = [].
Proof.
  split; [reflexivity |]. eexists. split; reflexivity.
Qed.

(** C3, amended: when the [try] block of [_connection_loop] is left, by
    the end of the stream or by an exception (a transport error or a
    cancellation), with the receiver [rd] at that moment: the state is
    empty and the streams are gone; a pending waiter is cancelled, and a
    caller suspended on it gets CancelledError; a pending debounce task is
    cancelled and no later [Timer] notifies; the callback is called once,
    with the empty state, when one is registered and the state of [rd] was
    not empty, and not at all otherwise. *)
Theorem connection_drop r a o rd :
  connection_body r a = (o, rd) ->
  o = Returned \/ (exists e, o = Raised e) ->
  exists r',
    _connection_loop r a = (o, r') /\
    _state r' = ∅ /\ _writer r' = false /\ _reader r' = false /\
    (forall w, _state_changed_waiter rd = Some w ->
               futures rd !! w = Some FutPending ->
               futures r' !! w = Some FutCancelled /\
               status_resumes r' w = Some (Raise CancelledError)) /\
    (forall t, _state_changed_task rd = Some t ->
               timers rd !! t = Some TaskPending ->
               timers r' !! t = Some TaskCancelled) /\
    timer_fires r' = r' /\
    cb_calls r' =
      (cb_calls rd ++
       if _state_changed_cb rd && state_nonempty rd then [∅] else [])%list.
Proof.
  intros Hb Ho. exists (clean_up rd).
  split; [by apply connection_loop_drop |].
  split; [apply clean_up_state |].
  split; [apply clean_up_streams |]. split; [apply clean_up_streams |].
  split; [| split; [| split; [apply clean_up_no_timer | apply clean_up_cb_calls]]].
  - intros w Hw Hf.
    assert (futures (clean_up rd) !! w = Some FutCancelled) as Hc.
    { rewrite clean_up_futures. unfold cancel_waiter.
      rewrite Hw, list_lookup_alter.
      destruct (decide (w = w)); [| done]. by rewrite Hf. }
    split; [done |]. unfold status_resumes. by rewrite Hc.
  - intros t Ht Hp. rewrite clean_up_timers. unfold cancel_timer.
    rewrite Ht, list_lookup_alter.
    destruct (decide (t = t)); [| done]. by rewrite Hp.
Qed.

(** A connection that received one line, then a status request, then
    lost the stream. *)
Definition one_line : attempt := Attempt None [Line "Main.Power=On"; Eof].

Lemma connection_drop_witness :
  exists r', _connection_loop fresh one_line = (Returned, r') /\
             _state r' = ∅ /\ cb_calls r' = [∅].
Proof.
  destruct (connection_drop fresh one_line Returned
              (snd (connection_body fresh one_line)))
    as (r' & H1 & H2 & _ & _ & _ & _ & _ & H3);
    [reflexivity | by left |].
  exists r'. split; [exact H1 |]. split; [exact H2 |]. exact H3.
Defined.

(** *** What the connection leaves alone *)

(** The attributes and objects that only [__init__] and [run_loop] set. *)
Definition supervision (r : receiver) :=
  (_host r, _reconnect_timeout r, _state_changed_timeout r,
   _state_changed_cb r, _connection_task r, connections r, slept r).

Lemma arm_supervision r : supervision (arm r) = supervision r.
Proof. unfold arm. by destruct (timer_free r). Qed.

Lemma parse_data_supervision r data r' :
  _parse_data r data = Ok r' -> supervision r' = supervision r.
Proof.
  intros (key & value & d & v & _ & _ & _ & ->)%parse_data_ok.
  by rewrite arm_supervision.
Qed.

Lemma timer_fires_supervision r : supervision (timer_fires r) = supervision r.
Proof.
  unfold timer_fires, _state_changed.
  destruct (_state_changed_task r) as [t|]; [| done].
  destruct (timers r !! t) as [[]|]; try done.
  destruct (_state_changed_cb r) eqn:Hcb; cbn;
    destruct (_state_changed_waiter r) as [w|]; try done;
    destruct (futures r !! w) as [[]|]; done.
Qed.

Lemma exec_command_supervision r command operator value r' :
  exec_command r command operator value = Ok r' ->
  supervision r' = supervision r.
Proof.
  unfold exec_command. destruct (_writer r); [| congruence].
  destruct (command_text _ _ _); cbn; try done. by intros [= <-].
Qed.

Lemma clean_up_supervision r : supervision (clean_up r) = supervision r.
Proof. by rewrite clean_up_eq. Qed.

Lemma read_loop_supervision evs r o r' :
  read_loop r evs = (o, r') -> supervision r' = supervision r.
Proof.
  revert r. induction evs as [|ev evs IH]; intros r; cbn.
  - by intros [= _ <-].
  - destruct ev as [data | | | e |]; try (by intros [= _ <-]).
    + destruct (String.eqb data ""); [apply IH |].
      destruct (_parse_data r (strip data)) as [r1| |] eqn:Hp;
        try (by intros [= _ <-]).
      intros H%IH. rewrite H. by eapply parse_data_supervision.
    + intros H%IH. by rewrite H, timer_fires_supervision.
Qed.

Lemma connection_loop_supervision r a o r' :
  _connection_loop r a = (o, r') -> supervision r' = supervision r.
Proof.
  unfold _connection_loop.
  destruct (connection_body r a) as [o1 r1] eqn:Hb.
  assert (supervision r1 = supervision r) as Hs.
  { unfold connection_body in Hb.
    destruct (connect a) as [e|]; [by injection Hb as _ <- |].
    destruct (exec_command _ _ _ _) as [r2|e|] eqn:Hx;
      try (by injection Hb as _ <-).
    apply exec_command_supervision in Hx.
    apply read_loop_supervision in Hb. by rewrite Hb, Hx. }
  destruct o1; intros [= <- <-]; by rewrite ?clean_up_supervision.
Qed.

(** *** The reconnect loop *)

Lemma live_connections_snoc cs st :
  length (filter (fun t => t = TaskPending) (cs ++ [st])) =
  length (filter (fun t => t = TaskPending) cs) +
  (if decide (st = TaskPending) then 1 else 0).
Proof.
  rewrite filter_app, length_app. f_equal.
  rewrite filter_cons, filter_nil. by destruct (decide _).
Qed.

Lemma raised_task_done e : raised_task e <> TaskPending.
Proof. by destruct e. Qed.

(** One attempt, from the task's creation to its end. *)
Lemma attempt_connections r a o r1 :
  _connection_loop (fst (start_attempt r)) a = (o, r1) ->
  supervision r1 =
    (_host r, _reconnect_timeout r, _state_changed_timeout r,
     _state_changed_cb r, Some (length (connections r)),
     connections r ++ [TaskPending], slept r).
Proof. intros H%connection_loop_supervision. by rewrite H. Qed.

Lemma end_connection_over r a o r1 st :
  _connection_loop (fst (start_attempt r)) a = (o, r1) ->
  (o = Returned /\ st = TaskFinished) \/
  (exists e, o = Raised e /\ st = raised_task e) ->
  let r2 := end_connection (snd (start_attempt r)) o r1 in
  connections r2 = connections r ++ [st] /\
  slept r2 = slept r /\
  _reconnect_timeout r2 = _reconnect_timeout r /\
  live_connections r2 = live_connections r.
Proof.
  intros Hc Ho r2.
  pose proof (attempt_connections _ _ _ _ Hc) as Hs.
  unfold supervision in Hs. injection Hs as _ Hrt _ _ _ Hcs Hsl.
  assert (connections r2 = connections r ++ [st]) as Hr2.
  { subst r2. cbn.
    destruct Ho as [[-> ->] | (e & -> & ->)]; cbn; rewrite Hcs;
      rewrite <- (Nat.add_0_r (length (connections r)));
      by rewrite insert_app_r. }
  split; [done |].
  split; [subst r2; by destruct Ho as [[-> ->] | (e & -> & ->)] |].
  split; [subst r2; by destruct Ho as [[-> ->] | (e & -> & ->)] |].
  unfold live_connections. rewrite Hr2, live_connections_snoc.
  destruct (decide (st = TaskPending)) as [->|]; [| lia].
  destruct Ho as [[_ [=]] | (e & _ & He)].
  by destruct (raised_task_done e).
Qed.

Lemma run_loop_cons r a rest :
  run_loop r (a :: rest) =
  let '(o, r1) := _connection_loop (fst (start_attempt r)) a in
  let r2 := end_connection (snd (start_attempt r)) o r1 in
  match after_attempt r2 o with
  | Some Break => (Returned, r2)
  | Some (SleepAndRetry delay) =>
      match sleep delay with
      | Elapses => run_loop (set_slept (slept r2 ++ [delay]) r2) rest
      | NeverElapses => (Awaiting, r2)
      | SleepRaises e => (Raised e, r2)
      | SleepUnmodelled => (OutOfModel, r2)
      end
  | Some (Propagate e) => (Raised e, r2)
  | None => (o, r2)
  end.
Proof. reflexivity. Qed.

Lemma run_loop_live attempts r :
  live_connections r = 0 ->
  live_connections (snd (run_loop r attempts)) <= 1.
Proof.
  revert r. induction attempts as [|a rest IH]; intros r Hr.
  { cbn. lia. }
  rewrite run_loop_cons.
  destruct (_connection_loop _ a) as [o r1] eqn:Hc.
  pose proof (attempt_connections _ _ _ _ Hc) as Hs.
  unfold supervision in Hs. injection Hs as _ _ _ _ _ Hcs _.
  assert (live_connections r1 <= 1) as Hlive.
  { unfold live_connections in *. rewrite Hcs, live_connections_snoc, Hr.
    by destruct (decide _). }
  destruct o as [|e| |].
  - destruct (end_connection_over r a Returned r1 TaskFinished Hc)
      as (_ & _ & _ & Hl); [by left |].
    cbn [after_attempt snd]. rewrite Hl. lia.
  - destruct (end_connection_over r a (Raised e) r1 (raised_task e) Hc)
      as (_ & _ & _ & Hl); [right; by exists e |].
    cbv zeta. unfold after_attempt.
    destruct e; cbn [reconnects_on snd]; try (rewrite Hl; lia);
      (destruct (sleep _); cbn [snd]; try (rewrite Hl; lia));
      apply IH; unfold live_connections in *; cbn [connections set_slept];
      exact Hl || (rewrite Hl; exact Hr).
  - done.
  - done.
Qed.

(** The exceptions of [run_loop]'s last [except] clause: the three it
    names, and ConnectionResetError, which is an OSError as well. *)
Definition transport_errors : list exn :=
  [ConnectionRefusedError; OSError; TimeoutError; ConnectionResetError].

(** A reconnect interval: a number of seconds, that is a bool, an int
    below 2^1023, or a float that is neither nan nor infinite. *)
Definition seconds (delay : object) : Prop :=
  match delay with
  | PBool _ => True
  | PInt z => (z < 2 ^ 1023)%Z
  | PFloat (S754_zero _) | PFloat (S754_finite _ _ _) => True
  | _ => False
  end.

Lemma ilog2_ratio_1 a : (0 < a)%Z -> ilog2_ratio a 1 = Z.log2 a.
Proof.
  intros Ha. unfold ilog2_ratio. change (Z.log2 1) with 0%Z. rewrite Z.sub_0_r.
  pose proof (Z.log2_nonneg a) as Hl. pose proof (Z.log2_spec a Ha) as [Hlo _].
  destruct (Z.leb_spec 0 (Z.log2 a)); [| lia].
  destruct (Z.leb_spec (1 * 2 ^ Z.log2 a) a); lia.
Qed.

Lemma float_of_int_below z :
  (0 < z < 2 ^ 1023)%Z -> exists f, float_of_int z = Ok f.
Proof.
  intros [Hz Hlt]. unfold float_of_int, round_binary64.
  rewrite Z.abs_eq by lia.
  destruct (Z.leb_spec z 0); [lia |].
  rewrite ilog2_ratio_1 by done.
  assert (Z.log2 z < 1023)%Z as Hl by (by apply Z.log2_lt_pow2).
  pose proof (Z.log2_nonneg z) as Hn.
  rewrite Z.max_l by lia.
  set (e := (Z.log2 z - 52)%Z) in *.
  destruct (Z.eqb _ (2 ^ 53)).
  - destruct (Z.eqb (2 ^ 52) 0); [by eexists |].
    destruct (Z.ltb_spec 971 (e + 1)); [lia | by eexists].
  - destruct (Z.eqb _ 0); [by eexists |].
    destruct (Z.ltb_spec 971 e); [lia | by eexists].
Qed.

Lemma sleep_seconds delay : seconds delay -> sleep delay = Elapses.
Proof.
  destruct delay as [b | z | [s | s | | s m e] | s]; try done.
  intros Hz. cbn in Hz. unfold sleep.
  destruct (Z.leb_spec z 0); [done |].
  destruct (float_of_int_below z) as [f ->]; [lia | done].
Qed.

(** C9. One turn of [run_loop] around a connection attempt that is over.
    After ConnectionRefusedError, OSError or a timeout (and
    ConnectionResetError, an OSError too) the connection task has failed
    and, the reconnect interval being a number of seconds, the loop sleeps
    [_reconnect_timeout] and goes on with the next attempt; after the end
    of the stream it returns and starts no other attempt; after a
    cancellation it returns and starts no other attempt; in each case no
    connection task is left pending. And whatever the attempts do, from a
    receiver with no pending connection task at most one is pending at any
    await of the loop. *)
Theorem run_loop_supervises r a rest o r1 :
  _connection_loop (fst (start_attempt r)) a = (o, r1) ->
  let r2 := end_connection (snd (start_attempt r)) o r1 in
  (forall e, In e transport_errors -> o = Raised e ->
     connections r2 = connections r ++ [TaskFailed e] /\
     live_connections r2 = live_connections r /\
     (seconds (_reconnect_timeout r) ->
        run_loop r (a :: rest) =
          run_loop (set_slept (slept r ++ [_reconnect_timeout r]) r2) rest)) /\
  (o = Returned ->
     run_loop r (a :: rest) = (Returned, r2) /\
     connections r2 = connections r ++ [TaskFinished] /\
     live_connections r2 = live_connections r) /\
  (o = Raised CancelledError ->
     run_loop r (a :: rest) = (Returned, r2) /\
     connections r2 = connections r ++ [TaskCancelled] /\
     live_connections r2 = live_connections r) /\
  (forall attempts, live_connections r = 0 ->
     live_connections (snd (run_loop r attempts)) <= 1).
Proof.
  intros Hc r2.
  assert (run_loop r (a :: rest) =
          match after_attempt r2 o with
          | Some Break => (Returned, r2)
          | Some (SleepAndRetry delay) =>
              match sleep delay with
              | Elapses => run_loop (set_slept (slept r2 ++ [delay]) r2) rest
              | NeverElapses => (Awaiting, r2)
              | SleepRaises e => (Raised e, r2)
              | SleepUnmodelled => (OutOfModel, r2)
              end
          | Some (Propagate e) => (Raised e, r2)
          | None => (o, r2)
          end) as Hrun.
  { rewrite run_loop_cons, Hc. done. }
  split; [| split; [| split]].
  - intros e He ->.
    destruct (end_connection_over r a (Raised e) r1 (raised_task e) Hc)
      as (Hcs & Hsl & Hrt & Hl); [right; by exists e |].
    fold r2 in Hcs, Hsl, Hrt, Hl.
    assert (raised_task e = TaskFailed e) as Hfailed.
    { unfold transport_errors in He. simpl in He.
      by destruct He as [<- | [<- | [<- | [<- | []]]]]. }
    rewrite Hfailed in Hcs. split; [done |]. split; [done |].
    intros Hsec. rewrite Hrun. unfold after_attempt. rewrite Hsl, Hrt.
    unfold transport_errors in He. simpl in He.
    destruct He as [<- | [<- | [<- | [<- | []]]]];
      cbn [reconnects_on]; by rewrite sleep_seconds.
  - intros ->.
    destruct (end_connection_over r a Returned r1 TaskFinished Hc)
      as (Hcs & _ & _ & Hl); [by left |].
    by rewrite Hrun.
  - intros ->.
    destruct (end_connection_over r a (Raised CancelledError) r1
                TaskCancelled Hc)
      as (Hcs & _ & _ & Hl); [right; by exists CancelledError |].
    by rewrite Hrun.
  - intros attempts. apply run_loop_live.
Qed.

Definition broken : attempt := Attempt None [Fail OSError].

Lemma run_loop_supervises_witness :
  run_loop fresh [broken; one_line] =
    run_loop (set_slept [PInt 10]
                (end_connection 0 (Raised OSError)
                   (snd (_connection_loop (fst (start_attempt fresh)) broken))))
      [one_line] /\
  live_connections (snd (run_loop fresh [broken; one_line])) <= 1.
Proof.
  destruct (run_loop_supervises fresh broken [one_line]
              (Raised OSError)
              (snd (_connection_loop (fst (start_attempt fresh)) broken)))
    as (H1 & _ & _ & H4); [reflexivity |].
  split.
  - destruct (H1 OSError) as (_ & _ & H); [right; by left | reflexivity |].
    apply H. by vm_compute.
  - apply H4. reflexivity.
Defined.

(** *** A line that does not parse *)

Lemma index_from_raises x l i e : index_from x l i = Raise e -> e = ValueError.
Proof.
  revert i. induction l as [|y l IH]; intros i; cbn; [congruence |].
  destruct (String.eqb y x); [done | apply IH].
Qed.

Lemma index_from_modelled x l i : index_from x l i <> Unmodelled.
Proof.
  revert i. induction l as [|y l IH]; intros i; cbn; [done |].
  destruct (String.eqb y x); [done | apply IH].
Qed.

Lemma int_of_str_raises s e : int_of_str s = Raise e -> e = ValueError.
Proof.
  unfold int_of_str. destruct (drop_underscores _ _); [| congruence].
  destruct (take_sign _) as [neg [|c ds]]; [congruence |].
  destruct (_ && _); congruence.
Qed.

Lemma int_of_str_modelled s : int_of_str s <> Unmodelled.
Proof.
  unfold int_of_str. destruct (drop_underscores _ _); [| done].
  destruct (take_sign _) as [neg [|c ds]]; [done |].
  by destruct (_ && _).
Qed.

Lemma float_of_str_cases s :
  float_of_str s = Raise ValueError \/ exists f, float_of_str s = Ok f.
Proof.
  unfold float_of_str. destruct (drop_underscores _ _); [| by left].
  destruct (take_sign _) as [neg body].
  destruct (_ || _); [right; by eexists |].
  destruct (String.eqb _ "nan"); [right; by eexists |].
  destruct (span is_digit body) as [ip rest].
  destruct (match rest with [] => _ | _ => _ end) as [fp rest'].
  destruct (ip ++ fp); [by left |].
  destruct (parse_exponent rest'); [right; by eexists | by left].
Qed.

Lemma convert_cases d value :
  convert d value = Raise ValueError \/ convert d value = Raise KeyError \/
  exists v, convert d value = Ok v.
Proof.
  unfold convert. destruct (type d) as [[]|].
  - destruct (values d) as [[lo hi | l]|]; [by left | | by right; left].
    cbn. unfold index. destruct (index_from value l 0) as [i|e|] eqn:Hi.
    + right; right. by eexists.
    + apply index_from_raises in Hi as ->. by left.
    + by destruct (index_from_modelled value l 0).
  - destruct (int_of_str value) as [z|e|] eqn:Hz.
    + right; right. by eexists.
    + apply int_of_str_raises in Hz as ->. by left.
    + by destruct (int_of_str_modelled value).
  - destruct (float_of_str_cases value) as [-> | [f ->]]; [by left |].
    right; right. by eexists.
  - right; right. by eexists.
Qed.

(** [_parse_data] returns, or raises ValueError or KeyError. *)
Lemma parse_data_cases r data :
  _parse_data r data = Raise ValueError \/
  _parse_data r data = Raise KeyError \/
  exists r', _parse_data r data = Ok r'.
Proof.
  unfold _parse_data.
  destruct (split "=" data) as [|key [|value [|]]]; try by left.
  destruct (get C338_CMDS key) as [d|]; [| by right; left].
  destruct (convert_cases d value) as [-> | [-> | [v ->]]];
    [by left | by right; left |].
  right; right. cbn. destruct (timer_free _); by eexists.
Qed.

Lemma read_loop_app pre evs r r1 :
  read_loop r pre = (Awaiting, r1) ->
  read_loop r (pre ++ evs) = read_loop r1 evs.
Proof.
  revert r. induction pre as [|ev pre IH]; intros r; cbn.
  - by intros [= <-].
  - destruct ev as [data | | | e |]; try done.
    + destruct (String.eqb data ""); [apply IH |].
      destruct (_parse_data r (strip data)); try done. apply IH.
    + apply IH.
Qed.

(** C1, as the spec states it: a line that does not parse is dropped, the
    next lines are consumed and the connection stays. On the code, after
    the line "garbage" the line "Main.Power=On" is never applied, the
    streams are gone, and [run_loop] raises ValueError without starting
    the next attempt. *)
Lemma bad_line_ends_the_loop :
  exists r',
    run_loop fresh
      [Attempt None [Line "garbage"; Line "Main.Power=On"]; one_line]
    = (Raised ValueError, r') /\
    _writer r' = false /\
    _state r' !! "Main.Power" = None /\
    cb_calls r' = [] /\
    connections r' = [TaskFailed ValueError].
Proof.
  eexists. split; [reflexivity |]. repeat split.
Qed.

(** C1, amended: when a line of a connection does not parse,
    [_parse_data] raises ValueError or KeyError; the exception leaves the
    read loop, so the events after the line are not consumed; the
    [finally] block closes the connection and empties the state; and
    [run_loop] does not catch the exception: it raises it and starts no
    other attempt. [r1] is the receiver when the line arrives. *)
Theorem parse_failure_ends_run_loop r a rest pre line evs r1 e :
  connect a = None ->
  events a = pre ++ Line line :: evs ->
  connection_body (fst (start_attempt r)) (Attempt None pre) = (Awaiting, r1) ->
  line <> "" ->
  _parse_data r1 (strip line) = Raise e ->
  (e = ValueError \/ e = KeyError) /\
  _connection_loop (fst (start_attempt r)) a = (Raised e, clean_up r1) /\
  _writer (clean_up r1) = false /\
  _state (clean_up r1) = ∅ /\
  run_loop r (a :: rest) =
    (Raised e, end_connection (snd (start_attempt r)) (Raised e) (clean_up r1)).
Proof.
  intros Hconn Hev Hpre Hline Hparse.
  assert (e = ValueError \/ e = KeyError) as He.
  { destruct (parse_data_cases r1 (strip line)) as [H | [H | [r' H]]];
      rewrite H in Hparse; simplify_eq; auto. }
  assert (connection_body (fst (start_attempt r)) a = (Raised e, r1)) as Hbody.
  { unfold connection_body in *. rewrite Hconn. cbn [connect events] in Hpre.
    destruct (exec_command _ "Main" (Str "?") None) as [r0| |]; try done.
    rewrite Hev, (read_loop_app _ _ _ _ Hpre). cbn.
    apply String.eqb_neq in Hline. by rewrite Hline, Hparse. }
  assert (_connection_loop (fst (start_attempt r)) a = (Raised e, clean_up r1))
    as Hloop.
  { unfold _connection_loop. by rewrite Hbody. }
  split; [done |]. split; [done |].
  split; [apply clean_up_streams |]. split; [apply clean_up_state |].
  rewrite run_loop_cons, Hloop. cbv zeta. unfold after_attempt.
  by destruct He as [-> | ->].
Qed.

Lemma parse_failure_ends_run_loop_witness :
  run_loop fresh
    [Attempt None [Line "Main.Mute=Off"; Line "Main.Colour=Red"; Eof]; one_line]
  = (Raised KeyError,
     end_connection 0 (Raised KeyError)
       (clean_up
          (snd (connection_body (fst (start_attempt fresh))
                  (Attempt None [Line "Main.Mute=Off"]))))).
Proof.
  apply (parse_failure_ends_run_loop fresh
           (Attempt None [Line "Main.Mute=Off"; Line "Main.Colour=Red"; Eof])
           [one_line] [Line "Main.Mute=Off"] "Main.Colour=Red" [Eof]);
    [reflexivity | reflexivity | vm_compute; reflexivity | discriminate
    | vm_compute; reflexivity].
Defined.

(** *** The debounce task *)

(** With no sleep pending, [Timer] does nothing. *)
Lemma timer_fires_free r : timer_free r = true -> timer_fires r = r.
Proof.
  unfold timer_free, timer_fires.
  destruct (_state_changed_task r) as [t|]; [| done].
  by destruct (timers r !! t) as [[]|].
Qed.

Lemma timer_free_pending r :
  timer_free r = false <->
  exists t, _state_changed_task r = Some t /\ timers r !! t = Some TaskPending.
Proof.
  unfold timer_free. split.
  - destruct (_state_changed_task r) as [t|]; [| done].
    destruct (timers r !! t) as [[]|] eqn:Hp; try done. by exists t.
  - intros (t & -> & ->). done.
Qed.

(** A pending sleep elapses: the callback, when there is one, is called
    once with the state of that moment, and the task is done. *)
Lemma timer_fires_pending r :
  timer_free r = false ->
  cb_calls (timer_fires r) =
    cb_calls r ++ (if _state_changed_cb r then [_state r] else []) /\
  _state (timer_fires r) = _state r /\
  timer_free (timer_fires r) = true.
Proof.
  intros (t & Ht & Hp)%timer_free_pending.
  pose proof (lookup_lt_Some _ _ _ Hp) as Hlt.
  unfold timer_fires, timer_free. rewrite Ht, Hp. unfold _state_changed.
  destruct (_state_changed_cb r) eqn:Hcb;
    unfold set_cb_calls; cbn;
    destruct (_state_changed_waiter r) as [w|]; cbn;
    try destruct (futures r !! w) as [[]|]; cbn;
    rewrite ?Ht, ?app_nil_r, ?list_lookup_insert_eq by done; done.
Qed.

(** What [_parse_data] does to the debounce task: one is pending
    afterwards; a pending one is kept as it is; otherwise a new one is
    created. The callback is not called. *)
Lemma parse_data_timer r data r' :
  _parse_data r data = Ok r' ->
  cb_calls r' = cb_calls r /\
  futures r' = futures r /\
  _state_changed_waiter r' = _state_changed_waiter r /\
  timer_free r' = false /\
  (timer_free r = false ->
     _state_changed_task r' = _state_changed_task r /\ timers r' = timers r) /\
  (timer_free r = true ->
     _state_changed_task r' = Some (length (timers r)) /\
     timers r' = timers r ++ [TaskPending]).
Proof.
  intros (key & value & d & v & _ & _ & _ & ->)%parse_data_ok.
  unfold arm. rewrite timer_free_set_state.
  destruct (timer_free r) eqn:Hf; cbn.
  - split_and!; try done.
    unfold timer_free. cbn. by rewrite list_lookup_middle.
  - split_and!; try done.
Qed.

(** Lines that arrive while a sleep is pending leave the task and the
    callback alone. *)
Lemma lines_while_pending lines r r' :
  timer_free r = false ->
  Forall (fun line => line <> "") lines ->
  read_loop r (map Line lines) = (Awaiting, r') ->
  cb_calls r' = cb_calls r /\
  _state_changed_task r' = _state_changed_task r /\
  timers r' = timers r.
Proof.
  revert r. induction lines as [|line lines IH]; intros r Hf Hne; cbn.
  - by intros [= <-].
  - inversion Hne as [|? ? Hline Hne']; subst.
    apply String.eqb_neq in Hline. rewrite Hline.
    destruct (_parse_data r (strip line)) as [r1| |] eqn:Hp; try done.
    destruct (parse_data_timer _ _ _ Hp) as (Hcb & _ & _ & Hf1 & Hkeep & _).
    destruct (Hkeep Hf) as [Ht Hts].
    intros H. destruct (IH r1 Hf1 Hne' H) as (-> & -> & ->). by rewrite Hcb.
Qed.

(** C6. A burst of one or more lines, all applied with no [Timer] between
    them: the callback is not called during the burst; a debounce task is
    pending after it, the one that was pending before the burst, kept as it
    was, or else the single one the burst created; when its sleep elapses
    the callback is called once, with the state after the whole burst, and
    a further [Timer] does nothing. *)
Theorem burst_notifies_once r lines r' :
  lines <> [] ->
  Forall (fun line => line <> "") lines ->
  read_loop r (map Line lines) = (Awaiting, r') ->
  cb_calls r' = cb_calls r /\
  timer_free r' = false /\
  (timer_free r = false ->
     _state_changed_task r' = _state_changed_task r /\ timers r' = timers r) /\
  (timer_free r = true ->
     _state_changed_task r' = Some (length (timers r)) /\
     timers r' = timers r ++ [TaskPending]) /\
  cb_calls (timer_fires r') =
    cb_calls r ++ (if _state_changed_cb r then [_state r'] else []) /\
  _state (timer_fires r') = _state r' /\
  timer_fires (timer_fires r') = timer_fires r'.
Proof.
  intros Hnil Hne Hrun.
  assert (_state_changed_cb r' = _state_changed_cb r) as Hcb.
  { apply read_loop_supervision in Hrun. unfold supervision in Hrun.
    by injection Hrun. }
  destruct lines as [|line lines]; [done |]. cbn in Hrun.
  inversion Hne as [|? ? Hline Hne']; subst.
  apply String.eqb_neq in Hline. rewrite Hline in Hrun.
  destruct (_parse_data r (strip line)) as [r1| |] eqn:Hp; try done.
  destruct (parse_data_timer _ _ _ Hp) as (Hc1 & _ & _ & Hf1 & Hkeep & Hnew).
  destruct (lines_while_pending _ _ _ Hf1 Hne' Hrun) as (Hc & Ht & Hts).
  assert (timer_free r' = false) as Hf'.
  { unfold timer_free in *. by rewrite Ht, Hts. }
  destruct (timer_fires_pending r' Hf') as (Hfire & Hst & Hdone).
  split_and!.
  - by rewrite Hc.
  - done.
  - intros Hf. rewrite Ht, Hts. by apply Hkeep.
  - intros Hf. rewrite Ht, Hts. by apply Hnew.
  - by rewrite Hfire, Hc, Hc1, Hcb.
  - done.
  - by apply timer_fires_free.
Qed.

(** Three lines in one burst. *)
Definition burst : list string :=
  ["Main.Power=On"; "Main.Volume=-20"; "Main.Source=TV"].

Lemma burst_notifies_once_witness :
  exists r',
    read_loop online (map Line burst) = (Awaiting, r') /\
    cb_calls r' = [] /\
    timers r' = [TaskPending] /\
    cb_calls (timer_fires r') = [_state r'] /\
    _state r' !! "Main.Source" = Some (PStr "TV").
Proof.
  exists (snd (read_loop online (map Line burst))).
  destruct (burst_notifies_once online burst
              (snd (read_loop online (map Line burst))))
    as (H1 & _ & _ & H4 & H5 & _);
    [discriminate | repeat constructor; discriminate | reflexivity |].
  split; [reflexivity |]. split; [exact H1 |].
  split; [apply H4; reflexivity |]. split; [exact H5 | reflexivity].
Defined.

(** *** The status waiter *)

(** Every pending future is the one [_state_changed_waiter] refers to. *)
Definition waiter_inv (r : receiver) : Prop :=
  forall i, futures r !! i = Some FutPending ->
            _state_changed_waiter r = Some i.

Lemma filter_none {A} `{EqDecision A} (x : A) (l : list A) :
  (forall j, l !! j <> Some x) -> filter (fun y => y = x) l = [].
Proof.
  induction l as [|y l IH]; intros H; [done |].
  rewrite filter_cons. destruct (decide (y = x)) as [-> |].
  - by destruct (H 0).
  - apply IH. intros j. apply (H (S j)).
Qed.

Lemma at_most_one {A} `{EqDecision A} (x : A) (l : list A) :
  (forall i j, l !! i = Some x -> l !! j = Some x -> i = j) ->
  length (filter (fun y => y = x) l) <= 1.
Proof.
  induction l as [|y l IH]; intros H; [cbn; lia |].
  rewrite filter_cons. destruct (decide (y = x)) as [-> |].
  - rewrite filter_none; [cbn; lia |].
    intros j Hj. by specialize (H 0 (S j) eq_refl Hj).
  - apply IH. intros i j Hi Hj.
    by injection (H (S i) (S j) Hi Hj).
Qed.

Lemma waiter_inv_live r : waiter_inv r -> live_waiters r <= 1.
Proof.
  intros H. apply at_most_one. intros i j Hi%H Hj%H. congruence.
Qed.

Lemma exec_main_query r :
  exec_command r "Main" (Str "?") None =
  Ok (if _writer r then set_written (written r ++ ["Main?"]) r else r).
Proof. unfold exec_command. by destruct (_writer r). Qed.

Lemma timer_fires_futures r i :
  _state_changed_waiter (timer_fires r) = _state_changed_waiter r /\
  (futures (timer_fires r) !! i = Some FutPending ->
   futures r !! i = Some FutPending).
Proof.
  unfold timer_fires, _state_changed.
  destruct (_state_changed_task r) as [t|]; [| done].
  destruct (timers r !! t) as [[]|]; try done.
  destruct (_state_changed_cb r); unfold set_cb_calls; cbn;
    destruct (_state_changed_waiter r) as [w|] eqn:Hw; cbn; try done;
    destruct (futures r !! w) as [[]|] eqn:Hf; cbn; try done;
    (split; [done |]); rewrite list_lookup_insert;
    destruct (decide _) as [[-> _]|]; done.
Qed.

Lemma status_cases r r' w' :
  status r = Ok (r', w') ->
  (waiter_free r = false /\ _state_changed_waiter r = Some w' /\
   futures r' = futures r /\ _state_changed_waiter r' = Some w' /\
   written r' = written r ++ (if _writer r then ["Main?"] else [])) \/
  (waiter_free r = true /\ w' = length (futures r) /\
   futures r' = futures r ++ [FutPending] /\
   _state_changed_waiter r' = Some w' /\
   written r' = written r ++ (if _writer r then ["Main?"] else [])).
Proof.
  unfold status.
  destruct (_state_changed_waiter r) as [w|] eqn:Hw.
  - destruct (waiter_free r) eqn:Hf.
    + cbn. rewrite exec_main_query. cbn. intros [= <- <-]. right.
      destruct (_writer r); cbn; by rewrite ?app_nil_r.
    + rewrite exec_main_query. cbn. intros [= <- <-]. left.
      destruct (_writer r); cbn; by rewrite ?Hw, ?app_nil_r.
  - assert (waiter_free r = true) as Hf by (unfold waiter_free; by rewrite Hw).
    cbn. rewrite exec_main_query. cbn. intros [= <- <-]. right.
    destruct (_writer r); cbn; by rewrite ?app_nil_r.
Qed.

Lemma step_waiter_inv r r' : step r r' -> waiter_inv r -> waiter_inv r'.
Proof.
  intros Hstep Hinv i. destruct Hstep as
    [r data r' Hp | r | r r' w Hs | r command operator value r' Hx | r | r
    | r w | r | r t o | r delay].
  - destruct (parse_data_timer _ _ _ Hp) as (_ & -> & -> & _). apply Hinv.
  - destruct (timer_fires_futures r i) as [-> H]. intros Hi. by apply Hinv, H.
  - destruct (status_cases _ _ _ Hs)
      as [(_ & Hw & -> & -> & _) | (Hf & -> & -> & -> & _)].
    + rewrite <- Hw. apply Hinv.
    + intros Hi. destruct (decide (i < length (futures r))) as [Hlt|Hge].
      * rewrite lookup_app_l in Hi by done. pose proof (Hinv _ Hi) as Hw.
        unfold waiter_free in Hf. by rewrite Hw, Hi in Hf.
      * apply lookup_lt_Some in Hi. rewrite length_app in Hi. cbn in Hi.
        f_equal. lia.
  - unfold exec_command in Hx.
    destruct (_writer r); [| injection Hx as <-; apply Hinv].
    destruct (command_text _ _ _); cbn in Hx; try done.
    injection Hx as <-. apply Hinv.
  - apply Hinv.
  - rewrite clean_up_eq. cbn. unfold cancel_waiter.
    destruct (_state_changed_waiter r) as [w|] eqn:Hw.
    + rewrite list_lookup_alter. destruct (decide (w = i)) as [-> |]; [done |].
      intros Hi%Hinv. congruence.
    + intros Hi%Hinv. congruence.
  - cbn. rewrite list_lookup_alter. destruct (decide (w = i)) as [-> |].
    + by destruct (futures r !! i) as [[]|].
    + apply Hinv.
  - apply Hinv.
  - destruct o; apply Hinv.
  - apply Hinv.
Qed.

Lemma reachable_waiter_inv r : reachable r -> waiter_inv r.
Proof.
  induction 1 as [host t1 t2 cb | r r' _ IH Hstep].
  - intros i. cbn. by rewrite lookup_nil.
  - by eapply step_waiter_inv.
Qed.

(** C2, as the spec states it: the second of two [status] calls sends no
    second query. With a connection open the second call, made while the
    first waiter is pending, writes "Main?" again; the waiter is shared. *)
Lemma second_status_sends_a_query :
  exists r1 r2 w,
    status online = Ok (r1, w) /\
    futures r1 !! w = Some FutPending /\
    status r1 = Ok (r2, w) /\
    futures r2 = [FutPending] /\
    written r1 = ["Main?"] /\
    written r2 = ["Main?"; "Main?"].
Proof.
  eexists _, _, _. repeat split.
Qed.

(** The sessions of [run_loop] are among the receivers in use. *)
Lemma read_loop_reachable evs r :
  reachable r -> reachable (snd (read_loop r evs)).
Proof.
  revert r. induction evs as [|ev evs IH]; intros r Hr; [done |].
  destruct ev as [data | | | e |]; cbn; try done.
  - destruct (String.eqb data ""); [by apply IH |].
    destruct (_parse_data r (strip data)) as [r1| |] eqn:Hp; try done.
    apply IH. eapply reachable_step; [done |]. by eapply step_line.
  - apply IH. eapply reachable_step; [done |]. apply step_timer.
Qed.

Lemma connection_loop_reachable r a :
  reachable r -> reachable (snd (_connection_loop r a)).
Proof.
  intros Hr. unfold _connection_loop.
  assert (reachable (snd (connection_body r a))) as Hb.
  { unfold connection_body. destruct (connect a); [done |].
    assert (reachable (set_streams true r)) as Ho.
    { eapply reachable_step; [done |]. apply step_open. }
    destruct (exec_command _ _ _ _) as [r1| |] eqn:Hx; try done.
    apply read_loop_reachable. eapply reachable_step; [done |].
    by eapply step_command. }
  destruct (connection_body r a) as [[] r1]; cbn in *; try done;
    (eapply reachable_step; [done |]; apply step_drop).
Qed.

Lemma run_loop_reachable attempts r :
  reachable r -> reachable (snd (run_loop r attempts)).
Proof.
  revert r. induction attempts as [|a rest IH]; intros r Hr; [done |].
  rewrite run_loop_cons.
  assert (reachable (fst (start_attempt r))) as H0.
  { eapply reachable_step; [done |]. apply step_attempt. }
  apply (connection_loop_reachable _ a) in H0.
  destruct (_connection_loop _ a) as [o r1]. cbn [snd] in H0. cbv zeta.
  assert (reachable (end_connection (snd (start_attempt r)) o r1)) as H2.
  { eapply reachable_step; [done |]. apply step_attempt_over. }
  destruct (after_attempt _ o) as [[| delay | e]|]; try done.
  destruct (sleep delay); try done.
  apply IH. eapply reachable_step; [done |]. apply step_slept.
Qed.

(** Lines leave the futures and the waiter as they are, and a pending
    debounce sleep pending. *)
Lemma lines_keep_waiter lines r r' :
  read_loop r (map Line lines) = (Awaiting, r') ->
  futures r' = futures r /\
  _state_changed_waiter r' = _state_changed_waiter r.
Proof.
  revert r. induction lines as [|line lines IH]; intros r; cbn.
  - by intros [= <-].
  - destruct (String.eqb line ""); [apply IH |].
    destruct (_parse_data r (strip line)) as [r1| |] eqn:Hp; try done.
    destruct (parse_data_timer _ _ _ Hp) as (_ & <- & <- & _). apply IH.
Qed.

Lemma lines_arm lines r r' :
  Forall (fun line => line <> "") lines ->
  read_loop r (map Line lines) = (Awaiting, r') ->
  lines <> [] \/ timer_free r = false ->
  timer_free r' = false.
Proof.
  revert r. induction lines as [|line lines IH]; intros r Hne; cbn.
  - intros [= <-] [H | H]; done.
  - inversion Hne as [|? ? Hline Hne']; subst.
    apply String.eqb_neq in Hline. rewrite Hline.
    destruct (_parse_data r (strip line)) as [r1| |] eqn:Hp; try done.
    destruct (parse_data_timer _ _ _ Hp) as (_ & _ & _ & Hf1 & _).
    intros H _. apply (IH r1 Hne' H). by right.
Qed.

(** The debounce sleep elapses while the waiter [w] is pending: [w] is
    resolved. *)
Lemma timer_resolves r w :
  _state_changed_waiter r = Some w ->
  futures r !! w = Some FutPending ->
  timer_free r = false ->
  futures (timer_fires r) !! w = Some FutResult.
Proof.
  intros Hw Hp (t & Ht & Htp)%timer_free_pending.
  pose proof (lookup_lt_Some _ _ _ Hp) as Hlt.
  unfold timer_fires, _state_changed. rewrite Ht, Htp.
  destruct (_state_changed_cb r); unfold set_cb_calls; cbn;
    rewrite Hw, Hp; cbn; by rewrite list_lookup_insert_eq.
Qed.

(** C2, amended: a [status] call made while the waiter [w] is pending
    returns the same [w] and creates no future, and it writes the query
    "Main?" again when a connection is open (nothing when there is none).
    Whatever lines are applied after the call, the callers stay suspended
    on [w]; once a line was applied (or a debounce sleep was pending
    already) the sleep is pending, and when it elapses the callback is
    called once, [w] is resolved and every caller suspended on it gets the
    state of that moment. And in every receiver a fresh one can become, by
    the steps of [run_loop] and the calls of its users, at most one waiter
    is live. *)
Theorem status_shares_waiter r w r' w' :
  _state_changed_waiter r = Some w ->
  futures r !! w = Some FutPending ->
  status r = Ok (r', w') ->
  w' = w /\
  futures r' = futures r /\
  _state_changed_waiter r' = Some w /\
  written r' = written r ++ (if _writer r then ["Main?"] else []) /\
  (forall lines r'',
     Forall (fun line => line <> "") lines ->
     read_loop r' (map Line lines) = (Awaiting, r'') ->
     status_resumes r'' w = None /\
     status_resumes r'' w' = None /\
     (lines <> [] \/ timer_free r' = false ->
        timer_free r'' = false /\
        cb_calls (timer_fires r'') =
          cb_calls r'' ++ (if _state_changed_cb r then [_state r''] else []) /\
        _state (timer_fires r'') = _state r'' /\
        status_resumes (timer_fires r'') w = Some (Ok (_state r'')) /\
        status_resumes (timer_fires r'') w' = Some (Ok (_state r'')) /\
        futures (timer_fires r'') !! w = Some FutResult /\
        timer_fires (timer_fires r'') = timer_fires r'')) /\
  (reachable r -> live_waiters r <= 1 /\ live_waiters r' <= 1) /\
  (forall r0 attempts,
     reachable r0 -> live_waiters (snd (run_loop r0 attempts)) <= 1).
Proof.
  intros Hw Hp Hs.
  assert (waiter_free r = false) as Hf.
  { unfold waiter_free. by rewrite Hw, Hp. }
  destruct (status_cases _ _ _ Hs)
    as [(_ & Hw' & Hfs & Hwr' & Hwritten) | (Hf' & _)]; [| congruence].
  assert (w' = w) as -> by congruence.
  split_and!; try done.
  - intros lines r'' Hne Hrun.
    destruct (lines_keep_waiter _ _ _ Hrun) as [Hfs'' Hw''].
    assert (futures r'' !! w = Some FutPending) as Hp''.
    { by rewrite Hfs'', Hfs. }
    assert (status_resumes r'' w = None) as Hnone.
    { unfold status_resumes. by rewrite Hp''. }
    split_and!; try done.
    intros Harm. pose proof (lines_arm _ _ _ Hne Hrun Harm) as Ht.
    destruct (timer_fires_pending r'' Ht) as (Hcb & Hst & Hdone).
    assert (futures (timer_fires r'') !! w = Some FutResult) as Hres.
    { apply timer_resolves; [by rewrite Hw'', Hwr' | done | done]. }
    assert (status_resumes (timer_fires r'') w = Some (Ok (_state r''))) as Hr.
    { unfold status_resumes. by rewrite Hres, Hst. }
    assert (_state_changed_cb r'' = _state_changed_cb r) as Hcbs.
    { apply read_loop_supervision in Hrun. unfold supervision in Hrun.
      injection Hrun as _ _ _ -> _ _ _.
      unfold status in Hs. rewrite Hw, Hf, exec_main_query in Hs.
      cbn in Hs. injection Hs as <-. by destruct (_writer r). }
    split_and!; try done.
    + by rewrite Hcb, Hcbs.
    + by apply timer_fires_free.
  - intros Hr. split; apply waiter_inv_live, reachable_waiter_inv; [done |].
    eapply reachable_step; [done |]. by eapply step_status.
  - intros r0 attempts Hr0.
    by apply waiter_inv_live, reachable_waiter_inv, run_loop_reachable.
Qed.

(** A receiver with a connection and one caller suspended in [status]. *)
Definition waiting : receiver :=
  set_written ["Main?"]
    (set_state_changed_waiter (Some 0) (set_futures [FutPending] online)).

Lemma status_shares_waiter_witness :
  exists r' r'',
    status online = Ok (waiting, 0) /\
    status waiting = Ok (r', 0) /\
    futures r' = [FutPending] /\
    written r' = ["Main?"; "Main?"] /\
    timer_free r' = true /\
    read_loop r' [Line "Main.Power=On"] = (Awaiting, r'') /\
    status_resumes r'' 0 = None /\
    cb_calls (timer_fires r'') = [_state r''] /\
    status_resumes (timer_fires r'') 0 = Some (Ok (_state r'')) /\
    _state r'' !! "Main.Power" = Some (PBool true).
Proof.
  exists (set_written ["Main?"; "Main?"] waiting).
  exists (snd (read_loop (set_written ["Main?"; "Main?"] waiting)
                 [Line "Main.Power=On"])).
  destruct (status_shares_waiter waiting 0
              (set_written ["Main?"; "Main?"] waiting) 0)
    as (_ & H2 & _ & H4 & H5 & _); try reflexivity.
  destruct (H5 ["Main.Power=On"]
              (snd (read_loop (set_written ["Main?"; "Main?"] waiting)
                      [Line "Main.Power=On"])))
    as (H6 & _ & H7); [repeat constructor; discriminate | reflexivity |].
  destruct H7 as (_ & H8 & _ & H9 & _); [left; discriminate |].
  split; [reflexivity |]. split; [reflexivity |].
  split; [exact H2 |]. split; [exact H4 |].
  split; [reflexivity |]. split; [reflexivity |].
  split; [exact H6 |]. split; [exact H8 |]. split; [exact H9 | reflexivity].
Defined.

(** *** Integers as floats *)

Local Open Scope Z_scope.

(** Rounding a positive integer: below 2^53 the result is exact, above
    the mantissa keeps its 53 bits and the exponent is positive. *)
Lemma round_int s a :
  0 < a ->
  match round_binary64 s a 1 with
  | S754_finite s' m e =>
      s' = s /\ ((e <= 0 /\ Zpos m = a * 2 ^ (- e)) \/ (0 < e /\ 2 ^ 52 <= Zpos m))
  | S754_infinity _ => True
  | _ => False
  end.
Proof.
  intros Ha. unfold round_binary64.
  destruct (Z.leb_spec a 0); [lia |].
  rewrite ilog2_ratio_1 by done.
  pose proof (Z.log2_nonneg a) as Hl. pose proof (Z.log2_spec a Ha) as [Hlo Hhi].
  set (l := Z.log2 a) in *. rewrite Z.max_l by lia.
  destruct (Z.leb_spec 0 (l - 52)) as [He|He].
  - destruct (Z.eq_dec l 52) as [El|El].
    + rewrite El in *. change (52 - 52) with 0. change (2 ^ 0) with 1.
      change (1 * 1) with 1. rewrite Z.div_1_r, Z.mod_1_r.
      change (2 * 0 ?= 1) with Lt. cbv iota.
      change (Z.succ 52) with 53 in Hhi.
      destruct (Z.eqb_spec a (2 ^ 53)); [lia |].
      destruct (Z.eqb_spec a 0); [lia |].
      change (971 <? 0) with false. cbv iota.
      split; [done |]. left. split; [lia |]. rewrite Z2Pos.id by lia.
      change (2 ^ (- 0)) with 1. lia.
    + set (e := l - 52) in *. set (den := 1 * 2 ^ e).
      assert (0 < den) as Hden by (unfold den; lia).
      assert (2 ^ 52 <= a / den) as Hq.
      { apply Z.div_le_lower_bound; [done |].
        unfold den. rewrite Z.mul_1_l, <- Z.pow_add_r by lia.
        replace (e + 52) with l by (unfold e; lia). done. }
      set (q := a / den) in *.
      set (q' := match 2 * (a mod den) ?= den with
                 | Eq => if Z.even q then q else q + 1
                 | Lt => q | Gt => q + 1 end).
      assert (2 ^ 52 <= q') as Hq'.
      { unfold q'. destruct (_ ?= _); [destruct (Z.even q) | |]; lia. }
      destruct (Z.eqb_spec q' (2 ^ 53)).
      * change (2 ^ 52 =? 0) with false. cbv iota.
        destruct (971 <? e + 1); [done |]. split; [done |]. right.
        split; [lia |]. done.
      * destruct (Z.eqb_spec q' 0); [lia |].
        destruct (971 <? e); [done |]. split; [done |]. right.
        split; [lia |]. rewrite Z2Pos.id by lia. done.
  - set (e := l - 52) in *. rewrite Z.div_1_r, Z.mod_1_r.
    change (2 * 0 ?= 1) with Lt. cbv iota.
    assert (0 < 2 ^ (- e)) as Hp by (apply Z.pow_pos_nonneg; lia).
    assert (a * 2 ^ (- e) < 2 ^ 53) as Hlt.
    { replace 53 with (Z.succ l + - e) by (unfold e; lia).
      rewrite Z.pow_add_r by lia. nia. }
    destruct (Z.eqb_spec (a * 2 ^ (- e)) (2 ^ 53)); [lia |].
    destruct (Z.eqb_spec (a * 2 ^ (- e)) 0); [nia |].
    destruct (Z.ltb_spec 971 e); [lia |].
    split; [done |]. left. split; [lia |]. rewrite Z2Pos.id by nia. done.
Qed.

(** [float(z)] is equal to [z] itself, or is at least 2^53 in magnitude. *)
Lemma float_of_int_integer z f k :
  float_of_int z = Ok f -> float_as_integer f = Some k ->
  k = z \/ 2 ^ 53 <= Z.abs k.
Proof.
  unfold float_of_int. destruct (Z.eq_dec z 0) as [-> | Hz].
  { cbn. intros [= <-] [= <-]. by left. }
  pose proof (round_int (z <? 0) (Z.abs z) ltac:(lia)) as H.
  destruct (round_binary64 _ _ _) as [s | s | | s m e]; try done.
  destruct H as [-> Hm]. intros [= <-]. cbn.
  destruct Hm as [[He Hm] | [He Hm]].
  - destruct (Z.leb_spec 0 e).
    + assert (e = 0) as -> by lia. change (2 ^ (- 0)) with 1 in Hm.
      change (2 ^ 0) with 1. intros [= <-]. left.
      destruct (Z.ltb_spec z 0); lia.
    + assert (0 < 2 ^ (- e)) as Hp by (apply Z.pow_pos_nonneg; lia).
      rewrite Hm, Z.mod_mul, Z.div_mul by lia. cbn. intros [= <-]. left.
      destruct (Z.ltb_spec z 0); lia.
  - destruct (Z.leb_spec 0 e); [| lia]. intros [= <-]. right.
    assert (2 <= 2 ^ e).
    { change 2 with (2 ^ 1) at 1. apply Z.pow_le_mono_r; lia. }
    destruct (z <? 0); nia.
Qed.

(** A test on every integer of a window holds for each of them. *)
Lemma in_window (P : Z -> bool) lo n k :
  forallb P (map (fun i => lo + Z.of_nat i) (seq 0 n)) = true ->
  lo <= k < lo + Z.of_nat n -> P k = true.
Proof.
  intros H Hk. rewrite forallb_forall in H. apply H.
  apply in_map_iff. exists (Z.to_nat (k - lo)). split; [lia |].
  apply in_seq. lia.
Qed.

Definition small_ok (k : Z) : bool :=
  match float_of_int k with
  | Ok f => match float_as_integer f with
            | Some k' => (k' =? k)
            | None => false
            end
  | _ => false
  end.

Lemma float_of_int_small k :
  -80 <= k < 4 ->
  exists f, float_of_int k = Ok f /\ float_as_integer f = Some k.
Proof.
  intros Hk.
  assert (small_ok k = true) as H.
  { apply (in_window small_ok (-80) 84); [by vm_compute | lia]. }
  unfold small_ok in H. destruct (float_of_int k) as [f| |]; try done.
  exists f. split; [done |].
  destruct (float_as_integer f) as [k'|]; [| done].
  by apply Z.eqb_eq in H as ->.
Qed.

(** *** The volume *)

Definition volume_desc : cmd_desc :=
  CmdDesc all_operators (Some (Range (-80) 0)) (Some Tfloat).

(** With a value, the operator counts by its characters only. *)
Lemma command_text_chars command operator v :
  chars operator = "=" ->
  command_text command operator (Some v) =
  command_text command EqLiteral (Some v).
Proof.
  destruct operator as [|s]; [done |]. cbn [chars]. intros ->.
  unfold command_text. destruct (get C338_CMDS command); [| done].
  cbn [chars is_eq_literal is_some negb andb]. done.
Qed.

Lemma command_text_volume f :
  command_text "Main.Volume" EqLiteral (Some (PFloat f)) =
  if in_range (PFloat f) (-80) 0
  then match float_repr f with
       | Some sv => Ok ("Main.Volume=" +:+ sv)%string
       | None => Unmodelled
       end
  else Raise ValueError.
Proof.
  unfold command_text, in_range.
  cbv -[float_as_integer float_repr Z.leb Z.ltb str].
  destruct (float_as_integer f) as [z|]; [| done].
  destruct (-80 <=? z), (z <? 0); try done.
  unfold str. by destruct (float_repr f).
Qed.

Lemma float_repr_integer f k :
  float_as_integer f = Some k -> k <> 0 -> Z.abs k < 10 ^ 16 ->
  float_repr f = Some (str_int k +:+ ".0")%string.
Proof.
  destruct f as [s | s | | s m e]; try done.
  - cbn. by intros [= <-].
  - intros Hk _ Hlt. unfold float_repr. rewrite Hk.
    by destruct (Z.ltb_spec (Z.abs k) (10 ^ 16)); [| lia].
Qed.

(** The float -12.5. *)
Definition minus_12_5 : spec_float := S754_finite true 25 (-1).

Lemma set_volume_float r volume f :
  _writer r = true -> float volume = Ok f ->
  match float_as_integer f with
  | Some k =>
      if (-80 <=? k) && (k <? 0)
      then set_volume r volume =
             Ok (set_written
                   (written r ++ ["Main.Volume=" +:+ str_int k +:+ ".0"]%string) r)
      else set_volume r volume = Raise ValueError
  | None => set_volume r volume = Raise ValueError
  end.
Proof.
  intros Hw Hf. unfold set_volume. rewrite Hf. cbn [mbind result_bind].
  unfold CMD_VOLUME. rewrite exec_command_connected, command_text_volume by done.
  unfold in_range. destruct (float_as_integer f) as [k|] eqn:Hk; [| done].
  destruct (Z.leb_spec (-80) k), (Z.ltb_spec k 0); cbn [andb]; try done.
  by rewrite (float_repr_integer f k) by (done || lia).
Qed.

(** C10. With a connection open, [set_volume] accepts a volume exactly
    when its conversion to float is equal to one of the integers -80 to
    -1, and then writes that integer with ".0"; every other value raises
    ValueError. Among the ints it accepts exactly -80 to -1: 0 is
    rejected, and so is the float -12.5. *)
Theorem set_volume_accepts r volume :
  _writer r = true ->
  (forall f, float volume = Ok f ->
     match float_as_integer f with
     | Some k =>
         if (-80 <=? k) && (k <? 0)
         then set_volume r volume =
                Ok (set_written
                      (written r ++ ["Main.Volume=" +:+ str_int k +:+ ".0"]%string) r)
         else set_volume r volume = Raise ValueError
     | None => set_volume r volume = Raise ValueError
     end) /\
  (forall z, (exists r', set_volume r (PInt z) = Ok r') <-> -80 <= z <= -1) /\
  set_volume r (PInt 0) = Raise ValueError /\
  set_volume r (PFloat minus_12_5) = Raise ValueError.
Proof.
  intros Hw. split; [intros f; by apply set_volume_float |].
  split; [| split].
  - intros z. split.
    + intros [r' Hr'].
      destruct (float_of_int z) as [f|e|] eqn:Hf;
        [| by unfold set_volume in Hr'; cbn in Hr'; rewrite Hf in Hr'
         | by unfold set_volume in Hr'; cbn in Hr'; rewrite Hf in Hr'].
      pose proof (set_volume_float r (PInt z) f Hw Hf) as H.
      destruct (float_as_integer f) as [k|] eqn:Hk; [| congruence].
      destruct (Z.leb_spec (-80) k), (Z.ltb_spec k 0); cbn [andb] in H;
        try congruence.
      destruct (float_of_int_integer z f k Hf Hk); lia.
    + intros Hz. destruct (float_of_int_small z) as (f & Hf & Hk); [lia |].
      pose proof (set_volume_float r (PInt z) f Hw Hf) as H.
      rewrite Hk in H.
      destruct (Z.leb_spec (-80) z), (Z.ltb_spec z 0); try lia.
      cbn [andb] in H. by eexists.
  - exact (set_volume_float r (PInt 0) (S754_zero false) Hw eq_refl).
  - exact (set_volume_float r (PFloat minus_12_5) minus_12_5 Hw eq_refl).
Qed.

Lemma set_volume_accepts_witness :
  set_volume online (PInt (-12)) =
    Ok (set_written ["Main.Volume=-12.0"%string] online) /\
  set_volume online (PInt 0) = Raise ValueError.
Proof.
  destruct (set_volume_accepts online (PInt (-12))) as (H1 & _ & H3 & _);
    [reflexivity |].
  split; [| exact H3].
  exact (H1 (S754_finite true 6755399441055744 (-49)) eq_refl).
Defined.

(** *** Encoding and decoding *)

Lemma get_In {A} (d : list (string * A)) key a :
  get d key = Some a -> In (key, a) d.
Proof.
  induction d as [|[k x] d IH]; cbn; [done |].
  destruct (String.eqb_spec k key) as [-> |]; [intros [= ->]; by left |].
  intros H. right. by apply IH.
Qed.

Lemma store_lookup key v st : store key v st !! key = Some v.
Proof.
  unfold store. destruct (String.eqb_spec key "Main.Volume") as [-> |].
  - rewrite lookup_insert_ne by done. apply lookup_insert_eq.
  - apply lookup_insert_eq.
Qed.

(** A line [key=text] whose text converts is applied under [key]. *)
Lemma decode_line r line key text d v :
  split "=" line = [key; text] -> get C338_CMDS key = Some d ->
  convert d text = Ok v ->
  exists r', _parse_data r line = Ok r' /\ _state r' !! key = Some v.
Proof.
  intros Hs Hd Hv. eexists. split.
  - apply parse_data_ok. by exists key, text, d, v.
  - unfold arm. destruct (timer_free _); cbn; apply store_lookup.
Qed.

(** [v] is a number equal to the integer [k]. *)
Definition equals_int (v : object) (k : Z) : Prop :=
  match as_dyadic v with
  | Some (m, e) => if 0 <=? e then m * 2 ^ e = k else m = k * 2 ^ (- e)
  | None => False
  end.

Lemma float_equals_int f k :
  float_as_integer f = Some k -> equals_int (PFloat f) k.
Proof.
  unfold equals_int. destruct f as [s | s | | s m e]; try done; cbn.
  - by intros [= <-].
  - destruct (Z.leb_spec 0 e).
    + intros [= <-]. destruct s; lia.
    + assert (0 < 2 ^ (- e)) by (apply Z.pow_pos_nonneg; lia).
      destruct (Z.eqb_spec (Z.pos m mod 2 ^ (- e)) 0) as [Hm|]; [| done].
      intros [= <-].
      pose proof (Z.div_mod (Z.pos m) (2 ^ (- e)) ltac:(lia)) as Hdm.
      rewrite Hm in Hdm. destruct s; lia.
Qed.

(** Two numbers equal to the same integer are equal. *)
Lemma eq_equals_int a b k : equals_int a k -> equals_int b k -> eq a b = true.
Proof.
  unfold equals_int.
  destruct (as_dyadic a) as [[m1 e1]|] eqn:Ha; [| done].
  destruct (as_dyadic b) as [[m2 e2]|] eqn:Hb; [| done].
  intros H1 H2.
  assert (eq a b = (m1 * 2 ^ (e1 - Z.min e1 e2) =? m2 * 2 ^ (e2 - Z.min e1 e2)))
    as ->.
  { unfold eq. destruct a as [| |[]|], b as [| |[]|]; try done;
      by rewrite ?Ha, ?Hb. }
  apply Z.eqb_eq. set (e := Z.min e1 e2).
  assert (forall m' e', e <= e' ->
            (if 0 <=? e' then m' * 2 ^ e' = k else m' = k * 2 ^ (- e')) ->
            m' * 2 ^ (e' - e) * 2 ^ (Z.max 0 e) = k * 2 ^ (Z.max 0 (- e)))
    as Hnorm.
  { intros m' e' Hle H. destruct (Z.leb_spec 0 e').
    - subst k. destruct (Z.le_gt_cases 0 e).
      + rewrite (Z.max_r 0 e), (Z.max_l 0 (- e)) by lia.
        replace e' with ((e' - e) + e) at 2 by lia.
        rewrite Z.pow_add_r by lia. change (2 ^ 0) with 1. ring.
      + rewrite (Z.max_l 0 e), (Z.max_r 0 (- e)) by lia.
        replace (e' - e) with (e' + - e) by lia.
        rewrite Z.pow_add_r by lia. change (2 ^ 0) with 1. ring.
    - subst m'. rewrite (Z.max_l 0 e), (Z.max_r 0 (- e)) by lia.
      replace (- e) with (- e' + (e' - e)) by lia.
      rewrite Z.pow_add_r by lia. change (2 ^ 0) with 1. ring. }
  pose proof (Hnorm m1 e1 ltac:(lia) H1) as E1.
  pose proof (Hnorm m2 e2 ltac:(lia) H2) as E2.
  assert (0 < 2 ^ Z.max 0 e) by (apply Z.pow_pos_nonneg; lia).
  nia.
Qed.

(** The value has the type the table declares for the command: a bool for
    [bool], an int for [int], an int or a float for [float], a string for
    a command without a type. *)
Definition typed (d : cmd_desc) (v : object) : bool :=
  match type d, v with
  | Some Tbool, PBool _ => true
  | Some Tint, PInt _ => true
  | Some Tfloat, (PInt _ | PFloat _) => true
  | None, PStr _ => true
  | _, _ => false
  end.

(** Decoding [line] gives [key] and a value equal to [v]. *)
Definition decodes_to (key : string) (d : cmd_desc) (v : object) (line : string)
  : Prop :=
  exists text v', split "=" line = [key; text] /\ convert d text = Ok v' /\
                  eq v' v = true.

(** The same, as a test on the text [exec_command] builds for [v]. *)
Definition roundtrip_ok (key : string) (d : cmd_desc) (v : object) : bool :=
  match command_text key EqLiteral (Some v) with
  | Ok line =>
      match split "=" line with
      | [k; text] =>
          String.eqb k key &&
          match convert d text with Ok v' => eq v' v | _ => false end
      | _ => false
      end
  | _ => true
  end.

Lemma roundtrip_ok_sound key d v line :
  roundtrip_ok key d v = true ->
  command_text key EqLiteral (Some v) = Ok line ->
  decodes_to key d v line.
Proof.
  unfold roundtrip_ok. intros H Hl. rewrite Hl in H.
  destruct (split "=" line) as [|k [|text [|]]] eqn:Hs; try done.
  apply andb_prop in H as [->%String.eqb_eq H].
  destruct (convert d text) as [v'| |] eqn:Hc; try done.
  by exists text, v'.
Qed.

(** The text of a float equal to [k], for the volume. *)
Definition float_text_ok (k : Z) : bool :=
  match split "=" ("Main.Volume=" +:+ str_int k +:+ ".0") with
  | [key; text] =>
      String.eqb key "Main.Volume" &&
      match float_of_str text with
      | Ok f => match float_as_integer f with
                | Some k' => k' =? k
                | None => false
                end
      | _ => false
      end
  | _ => false
  end.

Lemma volume_float_roundtrip f line :
  command_text "Main.Volume" EqLiteral (Some (PFloat f)) = Ok line ->
  decodes_to "Main.Volume" volume_desc (PFloat f) line.
Proof.
  rewrite command_text_volume. unfold in_range.
  destruct (float_as_integer f) as [k|] eqn:Hk; [| done].
  destruct (Z.leb_spec (-80) k), (Z.ltb_spec k 0); cbn [andb]; try done.
  rewrite (float_repr_integer f k) by (done || lia). intros [= <-].
  assert (float_text_ok k = true) as Hok.
  { apply (in_window float_text_ok (-80) 80); [by vm_compute | lia]. }
  unfold float_text_ok in Hok.
  change ("Main.Volume=" +:+ str_int k +:+ ".0")%string
    with ("Main.Volume=" +:+ (str_int k +:+ ".0"))%string in Hok.
  destruct (split "=" _) as [|key [|text [|]]] eqn:Hs; try done.
  apply andb_prop in Hok as [->%String.eqb_eq Hok].
  destruct (float_of_str text) as [f'| |] eqn:Hf; try done.
  destruct (float_as_integer f') as [k'|] eqn:Hk'; [| done].
  apply Z.eqb_eq in Hok as ->.
  exists text, (PFloat f'). split; [done |]. split.
  - unfold convert. cbn. by rewrite Hf.
  - eapply eq_equals_int; by apply float_equals_int.
Qed.

Lemma int_roundtrip key d lo n z line :
  get C338_CMDS key = Some d ->
  values d = Some (Range lo (lo + Z.of_nat n)) ->
  type d <> Some Tbool ->
  forallb (fun z => roundtrip_ok key d (PInt z))
    (map (fun i => lo + Z.of_nat i) (seq 0 n)) = true ->
  command_text key EqLiteral (Some (PInt z)) = Ok line ->
  decodes_to key d (PInt z) line.
Proof.
  intros Hd Hv Ht Hall Hline.
  apply roundtrip_ok_sound; [| done].
  destruct (Z.leb_spec lo z) as [Hlo|Hlo], (Z.ltb_spec z (lo + Z.of_nat n))
    as [Hhi|Hhi];
    [by apply (in_window (fun z => roundtrip_ok key d (PInt z)) lo n) | | |];
    exfalso; unfold command_text in Hline; rewrite Hd in Hline;
    destruct (existsb _ (supported_operators d)); try done;
    destruct (is_eq_literal EqLiteral && _); try done;
    destruct (existsb _ _ && _); try done;
    rewrite Hv in Hline;
    (destruct (type d) as [[]|]; try done);
    cbn in Hline;
    (destruct (Z.leb_spec lo z), (Z.ltb_spec z (lo + Z.of_nat n));
     try lia; done).
Qed.

Lemma in_strings_cases v l :
  in_strings v l = true -> exists s, v = PStr s /\ In s l.
Proof.
  destruct v as [| | |s]; try done. cbn.
  intros (x & Hx & ->%String.eqb_eq)%existsb_exists. by exists x.
Qed.

(** The sources of the table. *)
Definition sources : list string :=
  ["Stream"; "Wireless"; "TV"; "Phono"; "Coax1"; "Coax2"; "Opt1"; "Opt2"]%string.

Definition source_desc : cmd_desc :=
  CmdDesc all_operators (Some (Strings sources)) None.

Lemma command_text_source s :
  command_text "Main.Source" EqLiteral (Some (PStr s)) =
  if in_strings (PStr s) sources
  then Ok ("Main.Source" +:+ "=" +:+ s)%string
  else Raise ValueError.
Proof.
  unfold command_text.
  change (get C338_CMDS "Main.Source") with (Some source_desc).
  cbv beta iota.
  cbn [chars is_eq_literal].
  change (existsb (String.eqb "=") (supported_operators source_desc)) with true.
  change (existsb (String.eqb "=") ["?"; "-"; "+"]%string) with false.
  cbn [andb negb is_some values type source_desc contains mbind result_bind
       str].
  destruct (in_strings (PStr s) sources); reflexivity.
Qed.

(** Every entry of the table, one by one. *)
Lemma table_roundtrip key d v line :
  get C338_CMDS key = Some d -> typed d v = true ->
  command_text key EqLiteral (Some v) = Ok line ->
  decodes_to key d v line.
Proof.
  intros Hd Ht Hline. pose proof (get_In _ _ _ Hd) as Hin.
  cbn in Hin.
  repeat (destruct Hin as [[= <- <-] | Hin]); try done;
    destruct v as [b | z | f | s]; try done.
  all: try (destruct b; (apply roundtrip_ok_sound; [by vm_compute | done])).
  - apply (int_roundtrip _ _ 0 0 z line Hd eq_refl);
      [done | vm_compute; reflexivity | done].
  - apply (int_roundtrip _ _ 0 4 z line Hd eq_refl);
      [done | vm_compute; reflexivity | done].
  - apply (int_roundtrip _ _ (-80) 80 z line Hd eq_refl);
      [done | vm_compute; reflexivity | done].
  - by apply volume_float_roundtrip.
  - apply roundtrip_ok_sound; [| done].
    rewrite command_text_source in Hline.
    destruct (in_strings (PStr s) sources) eqn:Hs; [| done].
    apply in_strings_cases in Hs as (s' & [= ->] & Hs). cbn in Hs.
    repeat (destruct Hs as [<- | Hs]); try done; by vm_compute.
Qed.

(** C4, as the spec states it: every value the validation accepts comes
    back from the decoder. The validation accepts [True] for the
    brightness and writes "Main.Brightness=True", which the decoder
    rejects; it accepts -1 for the mute and writes "Main.Mute=On", which
    decodes to [True], not equal to -1. *)
Lemma accepted_values_that_do_not_come_back :
  exec_command online "Main.Brightness" EqLiteral (Some (PBool true)) =
    Ok (set_written ["Main.Brightness=True"%string] online) /\
  _parse_data online "Main.Brightness=True" = Raise ValueError /\
  exec_command online "Main.Mute" EqLiteral (Some (PInt (-1))) =
    Ok (set_written ["Main.Mute=On"%string] online) /\
  (exists r', _parse_data online "Main.Mute=On" = Ok r' /\
              _state r' !! "Main.Mute"%string = Some (PBool true)) /\
  eq (PBool true) (PInt (-1)) = false.
Proof.
  split; [reflexivity |]. split; [reflexivity |]. split; [reflexivity |].
  split; [| reflexivity]. eexists. split; reflexivity.
Qed.

(** C4, amended: with a connection open, when [exec_command] accepts
    [key], an operator that reads "=" and a value of the type the table
    declares for [key], it writes one line; [_parse_data] applies that line
    on any receiver, and the state then holds under [key] a value equal to
    the original (a bool travels as "On" or "Off"). *)
Theorem encode_decode_roundtrip r key operator d v r1 r2 :
  _writer r = true ->
  get C338_CMDS key = Some d ->
  typed d v = true ->
  chars operator = "=" ->
  exec_command r key operator (Some v) = Ok r1 ->
  exists line v' r2',
    written r1 = written r ++ [line] /\
    _parse_data r2 line = Ok r2' /\
    _state r2' !! key = Some v' /\
    eq v' v = true.
Proof.
  intros Hw Hd Ht Hop Hx.
  rewrite exec_command_connected, command_text_chars in Hx by done.
  destruct (command_text key EqLiteral (Some v)) as [line| |] eqn:Hline;
    try done.
  cbn in Hx. injection Hx as <-.
  destruct (table_roundtrip _ _ _ _ Hd Ht Hline) as (text & v' & Hs & Hc & He).
  destruct (decode_line r2 line key text d v' Hs Hd Hc) as (r2' & Hp & Hst).
  by exists line, v', r2'.
Qed.

Lemma encode_decode_roundtrip_witness :
  exists line v' r2',
    written (set_written ["Main.Power=On"%string] online) = [] ++ [line] /\
    _parse_data fresh line = Ok r2' /\
    _state r2' !! "Main.Power"%string = Some v' /\
    eq v' (PBool true) = true.
Proof.
  apply (encode_decode_roundtrip online "Main.Power" EqLiteral on_off
           (PBool true) (set_written ["Main.Power=On"%string] online) fresh);
    reflexivity.
Defined.
(** *** Further properties of the class *)






























(** *** The D 7050 client *)


















